(** * Retry helpers and filename sanitising of the airweave platform

    A shallow embedding of

    - [backend/airweave/platform/sources/retry_helpers.py]: the retry
      predicates [should_retry_on_*] and the wait strategy
      [wait_rate_limit_with_backoff];
    - [backend/airweave/platform/utils/filename_utils.py]: [safe_filename].

    Conventions of the embedding.

    - A Python [float] is a value of [pyfloat]: an exact rational, one of the
      two infinities, or NaN.  Rounding to the nearest double is abstracted
      (finite sums and products are exact); the events of the float range that
      change control flow are kept: [2.0 ** n] raises [OverflowError] from
      [n = 1024] on and is the float zero from [n = -1075] down, and [float]
      of a string maps a too large literal to an infinity and a too small one
      to zero.
    - A raised exception is the [Raise] case of [result]; [try]/[except] is
      [try_except].
    - What the functions read from their environment (the clock, the random
      draw) and what they call in libraries whose code is not part of the
      repository ([email.utils.parsedate_to_datetime], tenacity's
      [wait_exponential], the Unicode tables behind [str] methods) is a field
      of a record the function takes as an argument. *)

From Stdlib Require Import ZArith QArith Qpower Qabs Qminmax Lqa Lia.
From Stdlib Require Import List String Ascii Bool.
Import ListNotations.

(** ** Python values and builtins *)

Module Py.

Local Open Scope Z_scope.

(** Exceptions that the modelled code can raise or catch. *)
Inductive exn : Type :=
| ValueError
| TypeError
| OverflowError
| AttributeError.

Inductive result (A : Type) : Type :=
| Ok (a : A)
| Raise (e : exn).

Arguments Ok {A} a.
Arguments Raise {A} e.

Definition bind {A B : Type} (m : result A) (f : A -> result B) : result B :=
  match m with
  | Ok a => f a
  | Raise e => Raise e
  end.

(** [try: body  except <classes>: handler]: the handler runs when the body
    raises one of the listed classes, any other exception propagates. *)
Definition try_except {A : Type} (body : result A) (caught : exn -> bool)
    (handler : result A) : result A :=
  match body with
  | Ok a => Ok a
  | Raise e => if caught e then handler else Raise e
  end.

Definition exn_eqb (a b : exn) : bool :=
  match a, b with
  | ValueError, ValueError | TypeError, TypeError
  | OverflowError, OverflowError | AttributeError, AttributeError => true
  | _, _ => false
  end.

(** [except (ValueError, TypeError)] *)
Definition ValueError_or_TypeError (e : exn) : bool :=
  exn_eqb e ValueError || exn_eqb e TypeError.

(** [except Exception] *)
Definition any_Exception (_ : exn) : bool := true.

(** *** Floats *)

Inductive pyfloat : Type :=
| Fin (q : Q)
| PInf
| NInf
| NaN.

Definition Qltb (p q : Q) : bool := negb (Qle_bool q p).

(** [a < b]; every comparison with NaN is false. *)
Definition flt (a b : pyfloat) : bool :=
  match a, b with
  | NaN, _ | _, NaN => false
  | Fin p, Fin q => Qltb p q
  | NInf, NInf => false
  | NInf, _ => true
  | Fin _, PInf => true
  | _, _ => false
  end.

(** [a > b] *)
Definition fgt (a b : pyfloat) : bool := flt b a.

(** [max(a, b)]: the first argument is kept unless the second is greater. *)
Definition max (a b : pyfloat) : pyfloat := if fgt b a then b else a.

(** [min(a, b)]: the first argument is kept unless the second is smaller. *)
Definition min (a b : pyfloat) : pyfloat := if flt b a then b else a.

(** Truth value of a float: false for zero only (NaN is true). *)
Definition truthy (a : pyfloat) : bool :=
  match a with
  | Fin q => negb (Qeq_bool q 0%Q)
  | _ => true
  end.

Definition fopp (a : pyfloat) : pyfloat :=
  match a with
  | Fin q => Fin (- q)%Q
  | PInf => NInf
  | NInf => PInf
  | NaN => NaN
  end.

Definition fadd (a b : pyfloat) : pyfloat :=
  match a, b with
  | NaN, _ | _, NaN => NaN
  | Fin p, Fin q => Fin (p + q)%Q
  | PInf, NInf | NInf, PInf => NaN
  | PInf, _ | _, PInf => PInf
  | NInf, _ | _, NInf => NInf
  end.

Definition fsub (a b : pyfloat) : pyfloat := fadd a (fopp b).

Definition Qsign_pos (q : Q) : bool := Qltb 0%Q q.

Definition fmul (a b : pyfloat) : pyfloat :=
  match a, b with
  | NaN, _ | _, NaN => NaN
  | Fin p, Fin q => Fin (p * q)%Q
  | Fin p, PInf | PInf, Fin p =>
      if Qeq_bool p 0%Q then NaN else if Qsign_pos p then PInf else NInf
  | Fin p, NInf | NInf, Fin p =>
      if Qeq_bool p 0%Q then NaN else if Qsign_pos p then NInf else PInf
  | PInf, PInf | NInf, NInf => PInf
  | PInf, NInf | NInf, PInf => NInf
  end.

(** *** The float range *)

(** Least magnitude that rounds to an infinity: the midpoint between the
    largest double and [2^1024]. *)
Definition overflow_threshold : Q := inject_Z (2 ^ 1024 - 2 ^ 970).

(** Greatest magnitude that rounds to zero: half the least subnormal. *)
Definition underflow_threshold : Q := (1 # (2 ^ 1075))%Q.

(** The value a decimal literal of exact value [q] denotes, up to rounding
    inside the range. *)
Definition of_literal (q : Q) : pyfloat :=
  if Qle_bool overflow_threshold (Qabs q) then
    (if Qsign_pos q then PInf else NInf)
  else if Qle_bool (Qabs q) underflow_threshold then Fin 0%Q
  else Fin q.

(** [2.0 ** n] for an [int] [n]. *)
Definition pow2 (n : Z) : result pyfloat :=
  if 1024 <=? n then Raise OverflowError
  else if n <=? -1075 then Ok (Fin 0%Q)
  else Ok (Fin (2 ^ n)%Q).

(** *** [float(s)] for a [str] of ASCII characters *)

Definition code (c : ascii) : N := N_of_ascii c.

Definition is_digit (c : ascii) : bool :=
  ((48 <=? code c) && (code c <=? 57))%N.

(** The characters [float] strips: space, [\t], [\n], [\v], [\f], [\r]. *)
Definition is_space (c : ascii) : bool :=
  ((code c =? 32) || ((9 <=? code c) && (code c <=? 13)))%N.

Definition to_lower (c : ascii) : ascii :=
  if ((65 <=? code c) && (code c <=? 90))%N
  then ascii_of_N (code c + 32) else c.

Fixpoint lstrip (s : list ascii) : list ascii :=
  match s with
  | c :: s' => if is_space c then lstrip s' else s
  | [] => []
  end.

Definition strip (s : list ascii) : list ascii :=
  rev (lstrip (rev (lstrip s))).

(** An underscore is accepted only between two digits; [prev] is the
    character before [s]. *)
Fixpoint underscores_ok (prev : option ascii) (s : list ascii) : bool :=
  let after_digit :=
    match prev with Some p => is_digit p | None => false end in
  match s with
  | [] => negb (match prev with Some p => Ascii.eqb p "_" | None => false end)
  | c :: s' =>
      (if Ascii.eqb c "_" then after_digit
       else match prev with
            | Some p => negb (Ascii.eqb p "_") || is_digit c
            | None => true
            end)
      && underscores_ok (Some c) s'
  end.

Definition drop_underscores (s : list ascii) : list ascii :=
  filter (fun c => negb (Ascii.eqb c "_")) s.

(** Reads the longest run of digits: the number read so far extended by the
    run, the length of the run, and what follows it. *)
Fixpoint read_digits (acc count : Z) (s : list ascii)
    : Z * Z * list ascii :=
  match s with
  | c :: s' =>
      if is_digit c
      then read_digits (10 * acc + (Z.of_N (code c) - 48)) (count + 1) s'
      else (acc, count, s)
  | [] => (acc, count, s)
  end.

(** An optional sign: [1] or [-1], and what follows it. *)
Definition read_sign (s : list ascii) : Z * list ascii :=
  match s with
  | "+"%char :: s' => (1, s')
  | "-"%char :: s' => (-1, s')
  | _ => (1, s)
  end.

(** [digits [. digits] [(e|E) [sign] digits]] with a digit before or after
    the point, as the pair of the digits read as one integer and the power
    of ten it is scaled by. *)
Definition read_decimal (s : list ascii) : option (Z * Z) :=
  let '(m1, n1, r1) := read_digits 0 0 s in
  let '(m2, n2, r2) :=
    match r1 with
    | "."%char :: r => read_digits m1 0 r
    | _ => (m1, 0, r1)
    end in
  if (n1 + n2 =? 0)%Z then None
  else
    match r2 with
    | [] => Some (m2, - n2)
    | c :: r =>
        if Ascii.eqb (to_lower c) "e" then
          let '(sg, r') := read_sign r in
          let '(e, ne, r3) := read_digits 0 0 r' in
          match r3 with
          | [] => if (ne =? 0)%Z then None else Some (m2, sg * e - n2)
          | _ :: _ => None
          end
        else None
    end.

Definition lower_string (s : list ascii) : string :=
  string_of_list_ascii (map to_lower s).

(** [float(s)]: surrounding white space is dropped, then the whole of what
    is left has to be a signed decimal literal, [inf], [infinity] or [nan]
    (in any case); anything else is a [ValueError].  The model reads ASCII:
    the decimal digits and the white space beyond ASCII, which Python's
    [float] accepts too, are a [ValueError] here. *)
Definition float (s : string) : result pyfloat :=
  let body := strip (list_ascii_of_string s) in
  if negb (underscores_ok None body) then Raise ValueError
  else
    let '(sg, r) := read_sign (drop_underscores body) in
    let signed (x : pyfloat) := if (sg =? 1)%Z then x else fopp x in
    match read_decimal r with
    | Some (m, e) => Ok (of_literal (inject_Z (sg * m) * 10 ^ e)%Q)
    | None =>
        let w := lower_string r in
        if String.eqb w "inf" || String.eqb w "infinity" then Ok (signed PInf)
        else if String.eqb w "nan" then Ok NaN
        else Raise ValueError
    end.

End Py.

(** ** retry_helpers.py *)

Module RetryHelpers.

Import Py.

Local Open Scope string_scope.
Local Open Scope Z_scope.

Notation "x <- m ;; k" := (bind m (fun x => k))
  (at level 61, m at next level, right associativity).

(** *** Failures and the retry state *)

(** [exception.response] of an [httpx.HTTPStatusError]: the status code and
    the response headers in the order received. *)
Record Response : Type := {
  status_code : Z;
  headers : list (string * string)
}.

(** The exception of a failed attempt, by class.  The four timeout classes
    are the subclasses of [httpx.TimeoutException]; every class the module
    does not name is an [OtherException]. *)
Inductive Exception : Type :=
| HTTPStatusError (response : Response)
| ConnectTimeout
| ReadTimeout
| WriteTimeout
| PoolTimeout
| OtherException (class_name : string).

(** What the wait strategy reads of tenacity's retry state:
    [retry_state.outcome.exception()], [None] when the attempt raised
    nothing, and the attribute [attempt_number], [None] when it is missing
    or [None]. *)
Record RetryState : Type := {
  outcome_exception : option Exception;
  attempt_number : option Z
}.

(** A [datetime]: whether it carries a time zone, and its instant in seconds
    since the epoch. *)
Record datetime : Type := {
  tz_aware : bool;
  timestamp : Q
}.

(** The services the wait strategy calls. *)
Record Env : Type := {
  (** [email.utils.parsedate_to_datetime] *)
  parsedate_to_datetime : string -> result datetime;
  (** tenacity's [wait_exponential(multiplier, min, max)(retry_state)] *)
  wait_exponential : Z -> Z -> Z -> RetryState -> result pyfloat;
  (** [datetime.now(timezone.utc)], in seconds since the epoch *)
  utc_now : Q;
  (** the draw of [random.random()], in [0, 1) *)
  random : Q
}.

(** [headers.get(key)] of [httpx.Headers]: names compare without case, and
    the values of a repeated name are joined by a comma and a space. *)
Definition same_name (a b : string) : bool :=
  String.eqb (lower_string (list_ascii_of_string a))
             (lower_string (list_ascii_of_string b)).

Definition headers_get (h : list (string * string)) (key : string)
    : option string :=
  match map snd (filter (fun kv => same_name (fst kv) key) h) with
  | [] => None
  | values => Some (String.concat ", " values)
  end.

(** Truth value of a [str]: false for the empty string only. *)
Definition str_truthy (s : string) : bool :=
  match s with
  | EmptyString => false
  | String _ _ => true
  end.

(** [dt - datetime.now(timezone.utc)] followed by [.total_seconds()]: a
    [datetime] without time zone cannot be subtracted from one with. *)
Definition seconds_until (env : Env) (dt : datetime) : result pyfloat :=
  if tz_aware dt then Ok (Fin (timestamp dt - utc_now env)%Q)
  else Raise TypeError.

(** [random.uniform(a, b)], which is [a + (b - a) * random()]. *)
Definition uniform (env : Env) (a b : pyfloat) : pyfloat :=
  fadd a (fmul (fsub b a) (Fin (random env))).

(** *** The retry predicates *)

Definition should_retry_on_rate_limit (exception : Exception) : bool :=
  match exception with
  | HTTPStatusError response => status_code response =? 429
  | _ => false
  end.

Definition should_retry_on_timeout (exception : Exception) : bool :=
  match exception with
  | ConnectTimeout | ReadTimeout => true
  | _ => false
  end.

Definition should_retry_on_rate_limit_or_timeout (exception : Exception)
    : bool :=
  should_retry_on_rate_limit exception || should_retry_on_timeout exception.

(** *** The wait strategy *)

(** [getattr(retry_state, "attempt_number", 1) or 1] *)
Definition attempt_of (retry_state : RetryState) : Z :=
  match attempt_number retry_state with
  | Some a => if a =? 0 then 1 else a
  | None => 1
  end.

(** [isinstance(exception, httpx.HTTPStatusError) and
    exception.response.status_code == 429], with the response when true. *)
Definition rate_limited (exception : option Exception) : option Response :=
  match exception with
  | Some (HTTPStatusError response) =>
      if status_code response =? 429 then Some response else None
  | _ => None
  end.

(** The two nested [try] blocks that turn the header into [wait_seconds]. *)
Definition retry_after_seconds (env : Env) (retry_after : string)
    : result pyfloat :=
  try_except
    (wait_seconds <- float retry_after ;;
     Ok (max wait_seconds (Fin 1)))
    ValueError_or_TypeError
    (try_except
       (dt <- parsedate_to_datetime env retry_after ;;
        delta <- seconds_until env dt ;;
        let wait_seconds := max delta (Fin 0) in
        Ok (max wait_seconds (Fin 1)))
       any_Exception
       (Ok (Fin 0))).

(** [base + random.uniform(0.0, 0.1 * base)] *)
Definition with_jitter (env : Env) (base : pyfloat) : pyfloat :=
  fadd base (uniform env (Fin 0) (fmul (Fin (1 # 10)) base)).

(** The block under [if isinstance(...) and ... == 429] up to its first
    [return]: the capped wait taken from the header, or [None] when control
    falls through to the exponential backoff. *)
Definition header_wait (env : Env) (response : Response)
    : result (option pyfloat) :=
  match headers_get (headers response) "Retry-After" with
  | Some retry_after =>
      if str_truthy retry_after then
        wait_seconds <- retry_after_seconds env retry_after ;;
        if truthy wait_seconds && fgt wait_seconds (Fin 0)
        then Ok (Some (min wait_seconds (Fin 120)))
        else Ok None
      else Ok None
  | None => Ok None
  end.

Definition wait_rate_limit_with_backoff (env : Env)
    (retry_state : RetryState) : result pyfloat :=
  let exception := outcome_exception retry_state in
  let attempt := attempt_of retry_state in
  p <- pow2 (attempt - 1) ;;
  let exp_429 := min (Fin 30) p in
  p <- pow2 (attempt - 1) ;;
  let exp_to := min (Fin 10) p in
  match rate_limited exception with
  | Some response =>
      from_header <- header_wait env response ;;
      match from_header with
      | Some wait => Ok (with_jitter env wait)
      | None =>
          base <- (if truthy exp_429 then Ok exp_429
                   else wait_exponential env 1 2 30 retry_state) ;;
          Ok (with_jitter env base)
      end
  | None =>
      base <- (if truthy exp_to then Ok exp_to
               else wait_exponential env 1 2 10 retry_state) ;;
      Ok (with_jitter env base)
  end.

(** *** Concrete services and retry states *)

(** A date parser that knows one HTTP-date, 21 October 2015 07:28:00 UTC,
    and rejects every other string. *)
Definition parsedate_one_date (s : string) : result datetime :=
  if String.eqb s "Wed, 21 Oct 2015 07:28:00 GMT"
  then Ok {| tz_aware := true; timestamp := 1445412480 |}
  else Raise ValueError.

(** tenacity's exponential wait:
    [max(max(0, min), min(multiplier * 2 ** (attempt_number - 1), max))]. *)
Definition clamped_exponential (multiplier lo hi : Z)
    (retry_state : RetryState) : result pyfloat :=
  match attempt_number retry_state with
  | None => Raise AttributeError
  | Some a =>
      Ok (max (Fin (inject_Z (Z.max 0 lo)))
              (min (Fin (inject_Z multiplier * 2 ^ (a - 1))%Q)
                   (Fin (inject_Z hi))))
  end.

(** The services with the clock at [now] and the random draw [u]. *)
Definition env_at (now u : Q) : Env := {|
  parsedate_to_datetime := parsedate_one_date;
  wait_exponential := clamped_exponential;
  utc_now := now;
  random := u
|}.

(** The retry state after attempt [a] failed with [exception]. *)
Definition failed_with (exception : Exception) (a : Z) : RetryState := {|
  outcome_exception := Some exception;
  attempt_number := Some a
|}.

(** A response with status 429 and the given headers. *)
Definition too_many_requests (hdrs : list (string * string)) : Response := {|
  status_code := 429;
  headers := hdrs
|}.

(** The retry state after attempt [a] was answered 429 with [hdrs]. *)
Definition rate_limited_at (hdrs : list (string * string)) (a : Z)
    : RetryState :=
  failed_with (HTTPStatusError (too_many_requests hdrs)) a.

End RetryHelpers.

(** ** filename_utils.py *)

Module FilenameUtils.

Local Open Scope N_scope.

(** A [str] is a sequence of Unicode code points. *)
Definition char : Type := N.
Definition str : Type := list char.

(** A [str] given by the ASCII characters of a literal. *)
Definition of_ascii (s : string) : str :=
  map N_of_ascii (list_ascii_of_string s).

(** The Unicode data behind the [str] methods used: NFKC normalisation,
    [str.lower], and the alphanumeric and white space properties of the
    code points outside ASCII. *)
Record Unicode : Type := {
  normalize_NFKC : str -> str;
  lower : str -> str;
  alnum_beyond_ascii : char -> bool;
  space_beyond_ascii : char -> bool
}.

(** [c.isalnum()] *)
Definition isalnum (U : Unicode) (c : char) : bool :=
  if c <? 128 then
    ((48 <=? c) && (c <=? 57)) || ((65 <=? c) && (c <=? 90))
    || ((97 <=? c) && (c <=? 122))
  else alnum_beyond_ascii U c.

(** White space as [str.strip] and the pattern [\s] see it. *)
Definition isspace (U : Unicode) (c : char) : bool :=
  if c <? 128 then
    ((9 <=? c) && (c <=? 13)) || ((28 <=? c) && (c <=? 32))
  else space_beyond_ascii U c.

(** [c in chars] for a single character [c]. *)
Definition char_in (c : char) (chars : str) : bool :=
  existsb (N.eqb c) chars.

Fixpoint drop_while (p : char -> bool) (s : str) : str :=
  match s with
  | c :: s' => if p c then drop_while p s' else s
  | [] => []
  end.

(** [s.rstrip(chars)], and [s.rstrip()] with [p] the white space test. *)
Definition rstrip_where (p : char -> bool) (s : str) : str :=
  rev (drop_while p (rev s)).

(** [s.strip()] *)
Definition strip (U : Unicode) (s : str) : str :=
  rstrip_where (isspace U) (drop_while (isspace U) s).

(** [re.sub(r"<class>+", repl, s)] for a character class [p] and a
    replacement of one character: every maximal run of characters of the
    class becomes one [repl].  [in_run] tells that the character before [s]
    was of the class. *)
Fixpoint sub_runs_from (in_run : bool) (p : char -> bool) (repl : char)
    (s : str) : str :=
  match s with
  | [] => []
  | c :: s' =>
      if p c then
        if in_run then sub_runs_from true p repl s'
        else repl :: sub_runs_from true p repl s'
      else c :: sub_runs_from false p repl s'
  end.

Definition sub_runs (p : char -> bool) (repl : char) (s : str) : str :=
  sub_runs_from false p repl s.

Fixpoint starts_with (s prefix : str) : bool :=
  match prefix, s with
  | [], _ => true
  | p :: prefix', c :: s' => (c =? p) && starts_with s' prefix'
  | _ :: _, [] => false
  end.

(** [s.endswith(suffix)] *)
Definition endswith (s suffix : str) : bool :=
  starts_with (rev s) (rev suffix).

Definition slash : char := 47.
Definition backslash : char := 92.
Definition underscore : char := 95.
Definition space : char := 32.
Definition dot : char := 46.

(** The class [[\\/]] *)
Definition is_slash (c : char) : bool := (c =? backslash) || (c =? slash).

(** The default of the parameter [default_ext]. *)
Definition html_ext : str := of_ascii ".html".

Definition safe_filename (U : Unicode) (name default_ext : str) : str :=
  let name := strip U (normalize_NFKC U name) in
  let name := sub_runs is_slash underscore name in
  let name := sub_runs (isspace U) space name in
  let name :=
    filter (fun c => isalnum U c || char_in c (of_ascii "._- ")) name in
  let name := rstrip_where (fun c => char_in c (of_ascii ". ")) name in
  if negb (endswith (lower U name) default_ext)
  then name ++ default_ext
  else name.

(** Unicode data restricted to ASCII: an ASCII string is its own NFKC form,
    [lower] maps the letters [A]-[Z], and no code point beyond ASCII is
    given a property. *)
Definition ascii_only : Unicode := {|
  normalize_NFKC := fun s => s;
  lower := map (fun c => if (65 <=? c) && (c <=? 90) then c + 32 else c);
  alnum_beyond_ascii := fun _ => false;
  space_beyond_ascii := fun _ => false
|}.

End FilenameUtils.

(** ** Facts about the Python builtins *)

Module PyFacts.

Import Py.

Local Open Scope Q_scope.

Lemma Qltb_true (p q : Q) : Qltb p q = true <-> p < q.
Proof.
  unfold Qltb. rewrite negb_true_iff.
  split; intro H.
  - apply Qnot_le_lt. intro Hle. apply Qle_bool_iff in Hle. congruence.
  - destruct (Qle_bool q p) eqn:E; [|reflexivity].
    apply Qle_bool_iff in E. lra.
Qed.

Lemma min_Fin (c p : Q) : min (Fin c) (Fin p) = Fin (Qmin c p).
Proof.
  unfold min, flt, Qltb, Qle_bool, Qmin, GenericMinMax.gmin, Qcompare.
  rewrite Z.leb_compare.
  destruct (Qnum c * QDen p ?= Qnum p * QDen c)%Z; reflexivity.
Qed.

Lemma max_Fin (p c : Q) : max (Fin p) (Fin c) = Fin (Qmax p c).
Proof.
  unfold max, fgt, flt, Qltb, Qle_bool, Qmax, GenericMinMax.gmax, Qcompare.
  rewrite Z.leb_compare, (Z.compare_antisym (Qnum p * QDen c)).
  destruct (Qnum p * QDen c ?= Qnum c * QDen p)%Z; reflexivity.
Qed.

Lemma truthy_pos (q : Q) : 0 < q -> truthy (Fin q) = true.
Proof.
  intro H. simpl. destruct (Qeq_bool q 0) eqn:E; [|reflexivity].
  apply Qeq_bool_iff in E. lra.
Qed.

Lemma pow2_in_range (n : Z) :
  (0 <= n < 1024)%Z -> pow2 n = Ok (Fin (2 ^ n)).
Proof.
  intro H. unfold pow2.
  destruct (Z.leb_spec 1024 n); [lia|].
  destruct (Z.leb_spec n (-1075)); [lia|reflexivity].
Qed.

Lemma pow2_overflow (n : Z) : (1024 <= n)%Z -> pow2 n = Raise OverflowError.
Proof.
  intro H. unfold pow2. destruct (Z.leb_spec 1024 n); [reflexivity|lia].
Qed.

Lemma pow2_ge_1 (n : Z) : (0 <= n)%Z -> 1 <= 2 ^ n.
Proof. intro H. apply Qpower_1_le; [lra|exact H]. Qed.

(** [float] raises nothing but [ValueError]. *)
Lemma float_raises_ValueError (s : string) (e : exn) :
  float s = Raise e -> e = ValueError.
Proof.
  unfold float.
  destruct (negb _); [congruence|].
  destruct (read_sign _) as [sg r].
  destruct (read_decimal r) as [[m k]|]; [discriminate|].
  destruct (_ || _); [discriminate|].
  destruct (String.eqb _ _); [discriminate|congruence].
Qed.

End PyFacts.

(** ** Facts about the wait strategy *)

Module RetryFacts.

Import Py PyFacts RetryHelpers.

Local Open Scope string_scope.
Local Open Scope Q_scope.

Ltac split_min x y :=
  let H := fresh "Hmin" in
  destruct (Q.min_spec x y) as [[? H]|[? H]].

Ltac split_max x y :=
  let H := fresh "Hmax" in
  destruct (Q.max_spec x y) as [[? H]|[? H]].

(** The jitter added to a finite base [b] is [0.1 * b] times the draw. *)
Lemma with_jitter_Fin (env : Env) (b : Q) :
  exists q, with_jitter env (Fin b) = Fin q
            /\ q == b + (1 # 10) * b * random env.
Proof.
  eexists. split; [reflexivity|]. ring.
Qed.

(** What the two [try] blocks leave in [wait_seconds]: they raise nothing,
    and the value is the sentinel [0.0], NaN, or at least [1.0]. *)
Lemma retry_after_seconds_cases (env : Env) (h : string) :
  exists w, retry_after_seconds env h = Ok w
            /\ (w = Fin 0 \/ w = NaN \/ w = PInf
                \/ exists q, w = Fin q /\ 1 <= q).
Proof.
  unfold retry_after_seconds.
  destruct (float h) as [x|e] eqn:F; simpl.
  - destruct x as [q| | |]; eexists; (split; [reflexivity|]).
    + right; right; right. rewrite max_Fin. eexists; split; [reflexivity|].
      apply Q.le_max_r.
    + right; right; left. reflexivity.
    + right; right; right. exists 1. split; [reflexivity|lra].
    + right; left. reflexivity.
  - apply float_raises_ValueError in F. subst e. simpl.
    destruct (parsedate_to_datetime env h) as [dt|e]; simpl.
    + unfold seconds_until. destruct (tz_aware dt); simpl.
      * rewrite !max_Fin. eexists; split; [reflexivity|].
        right; right; right. eexists; split; [reflexivity|].
        apply Q.le_max_r.
      * eexists; split; [reflexivity|]. left; reflexivity.
    + eexists; split; [reflexivity|]. left; reflexivity.
Qed.

(** The header block either falls through or yields a wait in
    [1.0, 120.0]. *)
Lemma header_wait_cases (env : Env) (response : Response) :
  header_wait env response = Ok None
  \/ exists q, header_wait env response = Ok (Some (Fin q)) /\ 1 <= q <= 120.
Proof.
  unfold header_wait.
  destruct (headers_get _ _) as [h|]; [|left; reflexivity].
  destruct (str_truthy h); [|left; reflexivity].
  destruct (retry_after_seconds_cases env h) as (w & -> & Hw). simpl.
  destruct Hw as [->|[->|[->|(q & -> & Hq)]]].
  - left; reflexivity.
  - left; reflexivity.
  - right. exists 120. split; [reflexivity|lra].
  - right. rewrite truthy_pos by lra.
    unfold fgt, flt. replace (Qltb 0 q) with true
      by (symmetry; apply Qltb_true; lra).
    simpl. rewrite min_Fin. eexists; split; [reflexivity|].
    split_min q 120; lra.
Qed.

(** The attempt the strategy works with when [attempt_number] is set and
    positive. *)
Lemma attempt_of_pos (rs : RetryState) (a : Z) :
  attempt_number rs = Some a -> (1 <= a)%Z -> attempt_of rs = a.
Proof.
  intros H Ha. unfold attempt_of. rewrite H.
  destruct (Z.eqb_spec a 0); [lia|reflexivity].
Qed.

(** The body of the strategy for an attempt whose power of two is a float:
    both exponential bases are computed and are not zero, so neither
    [wait_exponential] call is reached. *)
Lemma wait_in_range (env : Env) (rs : RetryState) (a : Z) :
  attempt_number rs = Some a -> (1 <= a <= 1024)%Z ->
  wait_rate_limit_with_backoff env rs =
  match rate_limited (outcome_exception rs) with
  | Some response =>
      from_header <- header_wait env response ;;
      match from_header with
      | Some wait => Ok (with_jitter env wait)
      | None => Ok (with_jitter env (Fin (Qmin 30 (2 ^ (a - 1)))))
      end
  | None => Ok (with_jitter env (Fin (Qmin 10 (2 ^ (a - 1)))))
  end.
Proof.
  intros Hn Ha. unfold wait_rate_limit_with_backoff.
  rewrite (attempt_of_pos rs a Hn) by lia.
  rewrite pow2_in_range by lia. simpl.
  rewrite !min_Fin.
  assert (H1 : 1 <= 2 ^ (a - 1)) by (apply pow2_ge_1; lia).
  rewrite !truthy_pos.
  - destruct (rate_limited _); [|reflexivity].
    destruct (header_wait env r) as [[w|]|e]; reflexivity.
  - split_min 10 (2 ^ (a - 1)); lra.
  - split_min 30 (2 ^ (a - 1)); lra.
Qed.

(** From attempt 1025 on the power of two is out of the float range and the
    strategy raises before it looks at the failure. *)
Lemma wait_overflow (env : Env) (rs : RetryState) (a : Z) :
  attempt_number rs = Some a -> (1025 <= a)%Z ->
  wait_rate_limit_with_backoff env rs = Raise OverflowError.
Proof.
  intros Hn Ha. unfold wait_rate_limit_with_backoff.
  rewrite (attempt_of_pos rs a Hn) by lia.
  rewrite pow2_overflow by lia. reflexivity.
Qed.

(** A 429 answer is taken down the rate-limit branch. *)
Lemma rate_limited_429 (response : Response) :
  status_code response = 429%Z ->
  rate_limited (Some (HTTPStatusError response)) = Some response.
Proof. intro H. simpl. rewrite H. reflexivity. Qed.

(** The block's value for a header that [float] reads as a number. *)
Lemma header_wait_number (env : Env) (response : Response) (h : string)
    (w : Q) :
  headers_get (headers response) "Retry-After" = Some h ->
  float h = Ok (Fin w) ->
  header_wait env response = Ok (Some (Fin (Qmin (Qmax w 1) 120))).
Proof.
  intros Hh Hf. unfold header_wait. rewrite Hh.
  destruct h as [|c h']; [discriminate Hf|]. simpl str_truthy. cbv iota.
  unfold retry_after_seconds. rewrite Hf. simpl.
  rewrite max_Fin.
  assert (H1 : 1 <= Qmax w 1) by apply Q.le_max_r.
  rewrite truthy_pos by lra.
  unfold fgt, flt.
  replace (Qltb 0 (Qmax w 1)) with true by (symmetry; apply Qltb_true; lra).
  simpl. rewrite min_Fin. reflexivity.
Qed.

(** The block's value for a header that only the date parser reads. *)
Lemma header_wait_date (env : Env) (response : Response) (h : string)
    (e : exn) (dt : datetime) :
  headers_get (headers response) "Retry-After" = Some h ->
  h <> "" ->
  float h = Raise e ->
  parsedate_to_datetime env h = Ok dt ->
  tz_aware dt = true ->
  header_wait env response =
  Ok (Some (Fin (Qmin (Qmax (Qmax (timestamp dt - utc_now env) 0) 1) 120))).
Proof.
  intros Hh Hne Hf Hd Htz. unfold header_wait. rewrite Hh.
  destruct h as [|c h']; [congruence|]. simpl str_truthy. cbv iota.
  unfold retry_after_seconds. rewrite Hf.
  apply float_raises_ValueError in Hf. subst e. simpl.
  rewrite Hd. simpl. unfold seconds_until. rewrite Htz. simpl.
  rewrite !max_Fin.
  assert (H1 : 1 <= Qmax (Qmax (timestamp dt - utc_now env) 0) 1)
    by apply Q.le_max_r.
  rewrite truthy_pos by lra.
  unfold fgt, flt.
  match goal with |- context [Qltb 0 ?x] =>
    replace (Qltb 0 x) with true by (symmetry; apply Qltb_true; lra)
  end.
  simpl. rewrite min_Fin. reflexivity.
Qed.

(** The block falls through when the header is missing, empty, or read by
    neither parser. *)
Lemma header_wait_unusable (env : Env) (response : Response) :
  headers_get (headers response) "Retry-After" = None
  \/ (exists h e e',
        headers_get (headers response) "Retry-After" = Some h
        /\ float h = Raise e /\ parsedate_to_datetime env h = Raise e') ->
  header_wait env response = Ok None.
Proof.
  intros [Hh|(h & e & e' & Hh & Hf & Hd)]; unfold header_wait; rewrite Hh.
  - reflexivity.
  - destruct (str_truthy h); [|reflexivity].
    unfold retry_after_seconds. rewrite Hf.
    apply float_raises_ValueError in Hf. subst e. simpl.
    rewrite Hd. reflexivity.
Qed.

(** A wait of base [b] plus jitter lies between [b] and [1.1 * b]. *)
Lemma jitter_bounds (b u q : Q) :
  0 <= b -> 0 <= u < 1 -> q == b + (1 # 10) * b * u ->
  b <= q <= (11 # 10) * b.
Proof.
  intros Hb Hu Hq.
  assert (0 <= b * u) by (apply Qmult_le_0_compat; lra).
  assert (b * u <= b * 1) by (apply Qmult_le_compat_nonneg; lra).
  rewrite Hq. split; lra.
Qed.

(** For one draw, the wait with jitter grows with the base. *)
Lemma jitter_monotone (b b' u q q' : Q) :
  b <= b' -> 0 <= u ->
  q == b + (1 # 10) * b * u -> q' == b' + (1 # 10) * b' * u ->
  q <= q'.
Proof.
  intros Hb Hu Hq Hq'.
  assert (0 <= (b' - b) * u) by (apply Qmult_le_0_compat; lra).
  rewrite Hq, Hq'. lra.
Qed.

(** The exponential base grows with the attempt and stays between 1 and
    its cap. *)
Lemma exp_base_bounds (cap : Q) (a : Z) :
  1 <= cap -> (1 <= a)%Z ->
  1 <= Qmin cap (2 ^ (a - 1)) <= cap.
Proof.
  intros Hc Ha.
  assert (1 <= 2 ^ (a - 1)) by (apply pow2_ge_1; lia).
  split_min cap (2 ^ (a - 1)); lra.
Qed.

Lemma exp_base_monotone (cap : Q) (a a' : Z) :
  (a <= a')%Z -> Qmin cap (2 ^ (a - 1)) <= Qmin cap (2 ^ (a' - 1)).
Proof.
  intro H.
  assert (2 ^ (a - 1) <= 2 ^ (a' - 1))
    by (apply Qpower_le_compat_l; [lia|lra]).
  split_min cap (2 ^ (a - 1)); split_min cap (2 ^ (a' - 1)); lra.
Qed.

(** The wait of the branch for timeouts and every other failure. *)
Lemma timeout_path_value (env : Env) (rs : RetryState) (a : Z) :
  rate_limited (outcome_exception rs) = None ->
  attempt_number rs = Some a -> (1 <= a <= 1024)%Z ->
  exists q, wait_rate_limit_with_backoff env rs = Ok (Fin q)
            /\ q == Qmin 10 (2 ^ (a - 1))
                    + (1 # 10) * Qmin 10 (2 ^ (a - 1)) * random env.
Proof.
  intros Hr Hn Ha. rewrite (wait_in_range env rs a Hn Ha), Hr.
  destruct (with_jitter_Fin env (Qmin 10 (2 ^ (a - 1)))) as (q & -> & Hq).
  exists q. split; [reflexivity|exact Hq].
Qed.

(** The wait of the 429 branch when the header block falls through. *)
Lemma fallback_429_value (env : Env) (rs : RetryState)
    (response : Response) (a : Z) :
  outcome_exception rs = Some (HTTPStatusError response) ->
  status_code response = 429%Z ->
  header_wait env response = Ok None ->
  attempt_number rs = Some a -> (1 <= a <= 1024)%Z ->
  exists q, wait_rate_limit_with_backoff env rs = Ok (Fin q)
            /\ q == Qmin 30 (2 ^ (a - 1))
                    + (1 # 10) * Qmin 30 (2 ^ (a - 1)) * random env.
Proof.
  intros He Hc Hw Hn Ha.
  rewrite (wait_in_range env rs a Hn Ha), He, (rate_limited_429 _ Hc), Hw.
  cbn [bind].
  destruct (with_jitter_Fin env (Qmin 30 (2 ^ (a - 1)))) as (q & -> & Hq).
  exists q. split; [reflexivity|exact Hq].
Qed.

(** The wait of the 429 branch when the header block yields a wait. *)
Lemma header_path_value (env : Env) (rs : RetryState)
    (response : Response) (b : Q) (a : Z) :
  outcome_exception rs = Some (HTTPStatusError response) ->
  status_code response = 429%Z ->
  header_wait env response = Ok (Some (Fin b)) ->
  attempt_number rs = Some a -> (1 <= a <= 1024)%Z ->
  exists q, wait_rate_limit_with_backoff env rs = Ok (Fin q)
            /\ q == b + (1 # 10) * b * random env.
Proof.
  intros He Hc Hw Hn Ha.
  rewrite (wait_in_range env rs a Hn Ha), He, (rate_limited_429 _ Hc), Hw.
  cbn [bind].
  destruct (with_jitter_Fin env b) as (q & -> & Hq).
  exists q. split; [reflexivity|exact Hq].
Qed.

(** Whatever the failure, an attempt from 1 to 1024 gets a finite wait of
    at least one second, below 132 on the 429 branch and below 11 on the
    other. *)
Lemma wait_value_in_range (env : Env) (rs : RetryState) (a : Z) :
  0 <= random env < 1 ->
  attempt_number rs = Some a -> (1 <= a <= 1024)%Z ->
  exists q, wait_rate_limit_with_backoff env rs = Ok (Fin q)
            /\ 1 <= q
            /\ match rate_limited (outcome_exception rs) with
               | Some _ => q <= 132
               | None => q <= 11
               end.
Proof.
  intros Hu Hn Ha.
  destruct (rate_limited (outcome_exception rs)) as [response|] eqn:Hr.
  - assert (He : outcome_exception rs = Some (HTTPStatusError response)
                 /\ status_code response = 429%Z).
    { unfold rate_limited in Hr.
      destruct (outcome_exception rs) as [[r| | | | |n]|]; try discriminate.
      destruct (Z.eqb_spec (status_code r) 429); [|discriminate].
      injection Hr as ->. split; [reflexivity|assumption]. }
    destruct He as [He Hc].
    destruct (header_wait_cases env response) as [Hw|(b & Hw & Hb)].
    + destruct (fallback_429_value env rs response a He Hc Hw Hn Ha)
        as (q & Hq & Hv).
      exists q. split; [exact Hq|].
      pose proof (exp_base_bounds 30 a ltac:(lra) ltac:(lia)).
      pose proof (jitter_bounds (Qmin 30 (2 ^ (a - 1))) (random env) q
                    ltac:(lra) Hu Hv).
      split; lra.
    + destruct (header_path_value env rs response b a He Hc Hw Hn Ha)
        as (q & Hq & Hv).
      exists q. split; [exact Hq|].
      pose proof (jitter_bounds b (random env) q ltac:(lra) Hu Hv).
      split; lra.
  - destruct (timeout_path_value env rs a Hr Hn Ha) as (q & Hq & Hv).
    exists q. split; [exact Hq|].
    pose proof (exp_base_bounds 10 a ltac:(lra) ltac:(lia)).
    pose proof (jitter_bounds (Qmin 10 (2 ^ (a - 1))) (random env) q
                  ltac:(lra) Hu Hv).
    split; lra.
Qed.

(** **** C1 *)




(** **** C2 *)

(** C2, as amended: for every failure, every attempt from 1 to 1024 and
    every draw in [0, 1), the strategy returns a finite wait that is at most
    132.0 on the 429 branch (the cap of 120.0 is applied before the jitter
    of up to 10% is added) and at most 11.0 on the branch of timeouts. *)
Theorem wait_upper_bounds (env : Env) (rs : RetryState) (a : Z) :
  0 <= random env < 1 ->
  attempt_number rs = Some a ->
  (1 <= a <= 1024)%Z ->
  exists q, wait_rate_limit_with_backoff env rs = Ok (Fin q)
            /\ match rate_limited (outcome_exception rs) with
               | Some _ => q <= 132
               | None => q <= 11
               end.
Proof.
  intros Hu Hn Ha.
  destruct (wait_value_in_range env rs a Hu Hn Ha) as (q & Hq & _ & Hb).
  exists q. split; assumption.
Qed.

Lemma wait_upper_bounds_witness :
  exists q,
    wait_rate_limit_with_backoff (env_at 0 (1 # 2))
      (rate_limited_at [("Retry-After", "120")] 1) = Ok (Fin q)
    /\ q <= 132.
Proof.
  apply (wait_upper_bounds (env_at 0 (1 # 2))
           (rate_limited_at [("Retry-After", "120")] 1) 1).
  - simpl; lra.
  - reflexivity.
  - lia.
Defined.

(** C2 fails as stated: [Retry-After: 120] with the draw 0.5 waits 126
    seconds, above 120. *)
Lemma wait_upper_bounds_counterexample :
  wait_rate_limit_with_backoff (env_at 0 (1 # 2))
    (rate_limited_at [("Retry-After", "120")] 1) = Ok (Fin (2520 # 20))
  /\ 120 < 2520 # 20.
Proof.
  split; vm_compute; reflexivity.
Qed.

(** **** C3 *)

(** C3, as amended: for attempts [a <= a'] from 1 to 1024 and a draw in
    [0, 1), the wait for a timeout failure at attempt [a] lies in
    [min(10, 2^(a-1)), 1.1 * min(10, 2^(a-1))] (the lower end is the capped
    base, not [2^(a-1)]), and with the same draw the wait at [a'] is not
    smaller. *)
Theorem timeout_wait_bounds (env : Env) (rs rs' : RetryState)
    (exception exception' : Exception) (a a' : Z) :
  0 <= random env < 1 ->
  outcome_exception rs = Some exception ->
  should_retry_on_timeout exception = true ->
  outcome_exception rs' = Some exception' ->
  should_retry_on_timeout exception' = true ->
  attempt_number rs = Some a ->
  attempt_number rs' = Some a' ->
  (1 <= a <= a')%Z -> (a' <= 1024)%Z ->
  exists q q',
    wait_rate_limit_with_backoff env rs = Ok (Fin q)
    /\ wait_rate_limit_with_backoff env rs' = Ok (Fin q')
    /\ Qmin 10 (2 ^ (a - 1)) <= q <= (11 # 10) * Qmin 10 (2 ^ (a - 1))
    /\ q <= q'.
Proof.
  intros Hu He Ht He' Ht' Hn Hn' Ha Ha'.
  assert (Hr : rate_limited (outcome_exception rs) = None)
    by (rewrite He; destruct exception; try discriminate; reflexivity).
  assert (Hr' : rate_limited (outcome_exception rs') = None)
    by (rewrite He'; destruct exception'; try discriminate; reflexivity).
  destruct (timeout_path_value env rs a Hr Hn ltac:(lia)) as (q & Hq & Hv).
  destruct (timeout_path_value env rs' a' Hr' Hn' ltac:(lia))
    as (q' & Hq' & Hv').
  exists q, q'. split; [exact Hq|]. split; [exact Hq'|].
  pose proof (exp_base_bounds 10 a ltac:(lra) ltac:(lia)).
  split.
  - apply (jitter_bounds _ (random env)); [lra|exact Hu|exact Hv].
  - apply (jitter_monotone (Qmin 10 (2 ^ (a - 1)))
             (Qmin 10 (2 ^ (a' - 1))) (random env)); try assumption.
    + apply exp_base_monotone; lia.
    + lra.
Qed.

Lemma timeout_wait_bounds_witness :
  exists q q',
    wait_rate_limit_with_backoff (env_at 0 (1 # 2))
      (failed_with ReadTimeout 3) = Ok (Fin q)
    /\ wait_rate_limit_with_backoff (env_at 0 (1 # 2))
         (failed_with ConnectTimeout 5) = Ok (Fin q')
    /\ Qmin 10 (2 ^ (3 - 1)) <= q <= (11 # 10) * Qmin 10 (2 ^ (3 - 1))
    /\ q <= q'.
Proof.
  apply (timeout_wait_bounds (env_at 0 (1 # 2))
           (failed_with ReadTimeout 3) (failed_with ConnectTimeout 5)
           ReadTimeout ConnectTimeout 3 5).
  - simpl; lra.
  - reflexivity.
  - reflexivity.
  - reflexivity.
  - reflexivity.
  - reflexivity.
  - reflexivity.
  - lia.
  - lia.
Defined.

(** C3 fails as stated: at attempt 5 with the draw 0 a read timeout waits
    10 seconds, below [2^(5-1) = 16]. *)
Lemma timeout_wait_counterexample :
  wait_rate_limit_with_backoff (env_at 0 0) (failed_with ReadTimeout 5)
  = Ok (Fin (100 # 10))
  /\ 100 # 10 < 2 ^ (5 - 1).
Proof.
  split; vm_compute; reflexivity.
Qed.

(** **** C4 *)

(** C4, as amended: for every attempt [a] from 1 to 1024 and every draw in
    [0, 1), the wait for a 429 failure without [Retry-After] header lies in
    [min(30, 2^(a-1)), 1.1 * min(30, 2^(a-1))]: the lower end is the capped
    base, not [2^(a-1)]. *)
Theorem fallback_429_bounds (env : Env) (rs : RetryState)
    (response : Response) (a : Z) :
  0 <= random env < 1 ->
  outcome_exception rs = Some (HTTPStatusError response) ->
  status_code response = 429%Z ->
  headers_get (headers response) "Retry-After" = None ->
  attempt_number rs = Some a ->
  (1 <= a <= 1024)%Z ->
  exists q,
    wait_rate_limit_with_backoff env rs = Ok (Fin q)
    /\ Qmin 30 (2 ^ (a - 1)) <= q <= (11 # 10) * Qmin 30 (2 ^ (a - 1)).
Proof.
  intros Hu He Hc Hh Hn Ha.
  assert (Hw : header_wait env response = Ok None)
    by (apply header_wait_unusable; left; exact Hh).
  destruct (fallback_429_value env rs response a He Hc Hw Hn Ha)
    as (q & Hq & Hv).
  exists q. split; [exact Hq|].
  pose proof (exp_base_bounds 30 a ltac:(lra) ltac:(lia)).
  apply (jitter_bounds _ (random env)); [lra|exact Hu|exact Hv].
Qed.

Lemma fallback_429_bounds_witness :
  exists q,
    wait_rate_limit_with_backoff (env_at 0 (1 # 2))
      (rate_limited_at [("Content-Type", "text/html")] 4) = Ok (Fin q)
    /\ Qmin 30 (2 ^ (4 - 1)) <= q <= (11 # 10) * Qmin 30 (2 ^ (4 - 1)).
Proof.
  apply (fallback_429_bounds (env_at 0 (1 # 2))
           (rate_limited_at [("Content-Type", "text/html")] 4)
           (too_many_requests [("Content-Type", "text/html")]) 4).
  - simpl; lra.
  - reflexivity.
  - reflexivity.
  - reflexivity.
  - reflexivity.
  - lia.
Defined.

(** C4 fails as stated: at attempt 6 with the draw 0 a 429 without header
    waits 30 seconds, below [2^(6-1) = 32]. *)
Lemma fallback_429_counterexample :
  wait_rate_limit_with_backoff (env_at 0 0) (rate_limited_at [] 6)
  = Ok (Fin (300 # 10))
  /\ 300 # 10 < 2 ^ (6 - 1).
Proof.
  split; vm_compute; reflexivity.
Qed.

(** **** C5 *)

(** Between attempts 1 and 1024 a [Retry-After] header that [float] reads
    as a positive number [w] is honoured: the wait is [max(w, 1.0)] capped
    at 120.0, plus a jitter of 10% of that base times the draw. *)
Lemma retry_after_number_wait (env : Env) (rs : RetryState)
    (response : Response) (h : string) (w : Q) (a : Z) :
  0 <= random env < 1 ->
  outcome_exception rs = Some (HTTPStatusError response) ->
  status_code response = 429%Z ->
  headers_get (headers response) "Retry-After" = Some h ->
  float h = Ok (Fin w) ->
  0 < w ->
  attempt_number rs = Some a ->
  (1 <= a <= 1024)%Z ->
  exists q,
    wait_rate_limit_with_backoff env rs = Ok (Fin q)
    /\ q == Qmin (Qmax w 1) 120 + (1 # 10) * Qmin (Qmax w 1) 120 * random env
    /\ Qmin (Qmax w 1) 120 <= q <= (11 # 10) * Qmin (Qmax w 1) 120.
Proof.
  intros Hu He Hc Hh Hf Hw Hn Ha.
  pose proof (header_wait_number env response h w Hh Hf) as Hb.
  destruct (header_path_value env rs response _ a He Hc Hb Hn Ha)
    as (q & Hq & Hv).
  exists q. split; [exact Hq|]. split; [exact Hv|].
  apply (jitter_bounds _ (random env)); [|exact Hu|exact Hv].
  split_max w 1; split_min (Qmax w 1) 120; lra.
Qed.

(** The two headers of the claim at an attempt in the range: [0.3] is
    floored to a wait in [1.0, 1.1], [5] waits in [5.0, 5.5]. *)
Lemma retry_after_examples (env : Env) (a : Z) :
  0 <= random env < 1 ->
  (1 <= a <= 1024)%Z ->
  (exists q,
     wait_rate_limit_with_backoff env
       (rate_limited_at [("Retry-After", "0.3")] a) = Ok (Fin q)
     /\ 1 <= q <= 11 # 10)
  /\ (exists q,
        wait_rate_limit_with_backoff env
          (rate_limited_at [("Retry-After", "5")] a) = Ok (Fin q)
        /\ 5 <= q <= 55 # 10).
Proof.
  intros Hu Ha. split.
  - destruct (retry_after_number_wait env
                (rate_limited_at [("Retry-After", "0.3")] a)
                (too_many_requests [("Retry-After", "0.3")]) "0.3" (3 # 10) a)
      as (q & Hq & _ & Hb); try reflexivity; try assumption.
    exists q. split; [exact Hq|].
    change (Qmin (Qmax (3 # 10) 1) 120) with 1 in Hb. lra.
  - destruct (retry_after_number_wait env
                (rate_limited_at [("Retry-After", "5")] a)
                (too_many_requests [("Retry-After", "5")]) "5" 5 a)
      as (q & Hq & _ & Hb); try reflexivity; try assumption.
    exists q. split; [exact Hq|].
    change (Qmin (Qmax 5 1) 120) with 5 in Hb. lra.
Qed.

(** C5, the code at the failing inputs: from attempt 1025 on, the line
    [exp_429 = min(30.0, 2.0 ** (attempt - 1))] raises [OverflowError] before
    the header is read, so neither [Retry-After: 5] nor [Retry-After: 0.3]
    gets a wait. *)
Theorem retry_after_lost_to_overflow (env : Env) (n : N) :
  wait_rate_limit_with_backoff env
    (rate_limited_at [("Retry-After", "5")] (1025 + Z.of_N n))
  = Raise OverflowError
  /\ wait_rate_limit_with_backoff env
       (rate_limited_at [("Retry-After", "0.3")] (1025 + Z.of_N n))
     = Raise OverflowError.
Proof.
  split; apply (wait_overflow env _ (1025 + Z.of_N n));
    [reflexivity|lia|reflexivity|lia].
Qed.

(** **** C6 *)

(** C6: [should_retry_on_rate_limit_or_timeout] is true exactly for an
    HTTP status failure whose status code is 429 and for a connect or read
    timeout; a status of 500, the two other timeout classes and every other
    exception give false. *)
Theorem retryable_iff_429_or_timeout (exception : Exception) :
  (should_retry_on_rate_limit_or_timeout exception = true <->
   (exists response,
      exception = HTTPStatusError response /\ status_code response = 429%Z)
   \/ exception = ConnectTimeout
   \/ exception = ReadTimeout)
  /\ (forall hdrs,
        should_retry_on_rate_limit_or_timeout
          (HTTPStatusError {| status_code := 500; headers := hdrs |}) = false)
  /\ (forall class_name,
        should_retry_on_rate_limit_or_timeout (OtherException class_name)
        = false)
  /\ should_retry_on_rate_limit_or_timeout WriteTimeout = false
  /\ should_retry_on_rate_limit_or_timeout PoolTimeout = false.
Proof.
  split; [|repeat split].
  unfold should_retry_on_rate_limit_or_timeout.
  destruct exception as [response| | | | |class_name]; simpl; split.
  - rewrite orb_false_r. intro H. apply Z.eqb_eq in H.
    left. exists response. split; [reflexivity|exact H].
  - intros [(r & Hr & Hc)|[H|H]]; try discriminate.
    injection Hr as ->. rewrite orb_false_r. apply Z.eqb_eq. exact Hc.
  - intros _. right; left; reflexivity.
  - reflexivity.
  - intros _. right; right; reflexivity.
  - reflexivity.
  - discriminate.
  - intros [(r & Hr & _)|[H|H]]; discriminate.
  - discriminate.
  - intros [(r & Hr & _)|[H|H]]; discriminate.
  - discriminate.
  - intros [(r & Hr & _)|[H|H]]; discriminate.
Qed.

(** **** C7 *)

(** C7: for a 429 failure whose [Retry-After] header is present but is read
    neither by [float] nor by the date parser, the strategy gives exactly
    what it gives for a 429 failure without the header at the same attempt
    and draw, and the exception of the parsers never leaves it: the only
    exception the call can end in is the [OverflowError] of the power of
    two, and up to attempt 1024 the value is that of the exponential
    fallback, [min(30, 2^(a-1))] plus jitter. *)
Theorem unparseable_retry_after_is_no_header (env : Env)
    (rs rs' : RetryState) (response response' : Response) (h : string)
    (a : Z) :
  outcome_exception rs = Some (HTTPStatusError response) ->
  status_code response = 429%Z ->
  headers_get (headers response) "Retry-After" = Some h ->
  (exists e, float h = Raise e) ->
  (exists e, parsedate_to_datetime env h = Raise e) ->
  outcome_exception rs' = Some (HTTPStatusError response') ->
  status_code response' = 429%Z ->
  headers_get (headers response') "Retry-After" = None ->
  attempt_number rs = Some a ->
  attempt_number rs' = Some a ->
  (1 <= a)%Z ->
  wait_rate_limit_with_backoff env rs = wait_rate_limit_with_backoff env rs'
  /\ (forall e, wait_rate_limit_with_backoff env rs = Raise e ->
                e = OverflowError)
  /\ ((a <= 1024)%Z ->
      exists q,
        wait_rate_limit_with_backoff env rs = Ok (Fin q)
        /\ q == Qmin 30 (2 ^ (a - 1))
                + (1 # 10) * Qmin 30 (2 ^ (a - 1)) * random env).
Proof.
  intros He Hc Hh [e Hf] [e' Hd] He' Hc' Hh' Hn Hn' Ha.
  assert (Hw : header_wait env response = Ok None).
  { apply header_wait_unusable. right. exists h, e, e'. auto. }
  assert (Hw' : header_wait env response' = Ok None).
  { apply header_wait_unusable. left. exact Hh'. }
  destruct (Z.le_gt_cases a 1024) as [Hle|Hgt].
  - destruct (fallback_429_value env rs response a He Hc Hw Hn
                ltac:(lia)) as (q & Hq & Hv).
    destruct (fallback_429_value env rs' response' a He' Hc' Hw' Hn'
                ltac:(lia)) as (q' & Hq' & _).
    rewrite (wait_in_range env rs a Hn ltac:(lia)),
            He, (rate_limited_429 _ Hc), Hw in Hq |- *.
    rewrite (wait_in_range env rs' a Hn' ltac:(lia)),
            He', (rate_limited_429 _ Hc'), Hw'.
    cbn [bind] in Hq |- *.
    split; [reflexivity|]. split; [discriminate|].
    intros _. exists q. split; [exact Hq|exact Hv].
  - rewrite (wait_overflow env rs a Hn ltac:(lia)),
            (wait_overflow env rs' a Hn' ltac:(lia)).
    split; [reflexivity|]. split; [|lia].
    intros x Hx. injection Hx as <-. reflexivity.
Qed.

Lemma unparseable_retry_after_witness :
  wait_rate_limit_with_backoff (env_at 0 (1 # 2))
    (rate_limited_at [("Retry-After", "garbage-unparseable")] 3)
  = wait_rate_limit_with_backoff (env_at 0 (1 # 2)) (rate_limited_at [] 3).
Proof.
  apply (unparseable_retry_after_is_no_header (env_at 0 (1 # 2))
           (rate_limited_at [("Retry-After", "garbage-unparseable")] 3)
           (rate_limited_at [] 3)
           (too_many_requests [("Retry-After", "garbage-unparseable")])
           (too_many_requests []) "garbage-unparseable" 3).
  - reflexivity.
  - reflexivity.
  - reflexivity.
  - exists ValueError. reflexivity.
  - exists ValueError. reflexivity.
  - reflexivity.
  - reflexivity.
  - reflexivity.
  - reflexivity.
  - reflexivity.
  - lia.
Defined.

(** **** C8 *)

(** Between attempts 1 and 1024 the strategy raises nothing and returns a
    non-negative number, whatever the failure and its headers. *)
Lemma wait_returns_nonnegative (env : Env) (rs : RetryState) (a : Z) :
  0 <= random env < 1 ->
  attempt_number rs = Some a ->
  (1 <= a <= 1024)%Z ->
  exists q, wait_rate_limit_with_backoff env rs = Ok (Fin q) /\ 0 <= q.
Proof.
  intros Hu Hn Ha.
  destruct (wait_value_in_range env rs a Hu Hn Ha) as (q & Hq & H1 & _).
  exists q. split; [exact Hq|lra].
Qed.

(** C8, the code at the failing inputs: at every attempt from 1025 on the
    strategy raises [OverflowError], whatever the failure, the clock and the
    draw: [2.0 ** (attempt - 1)] is out of the float range and nothing
    catches the exception. *)
Theorem wait_raises_from_attempt_1025 (env : Env)
    (exception : option Exception) (n : N) :
  wait_rate_limit_with_backoff env
    {| outcome_exception := exception;
       attempt_number := Some (1025 + Z.of_N n)%Z |}
  = Raise OverflowError.
Proof.
  apply (wait_overflow env _ (1025 + Z.of_N n)); [reflexivity|lia].
Qed.

(** **** C9 *)

(** A failure the code does not rate as a 429: no exception at all, a
    status other than 429, or any exception that is not an
    [HTTPStatusError]. *)
Lemma not_retryable_not_rate_limited (exception : option Exception) :
  (forall e, exception = Some e ->
             should_retry_on_rate_limit_or_timeout e = false) ->
  rate_limited exception = None.
Proof.
  intro H. destruct exception as [[r| | | | |n]|]; try reflexivity.
  specialize (H _ eq_refl).
  unfold should_retry_on_rate_limit_or_timeout in H. simpl in H.
  rewrite orb_false_r in H. simpl. rewrite H. reflexivity.
Qed.

(** Between attempts 1 and 1024 a failure that is not retryable, a missing
    exception included, gets the wait of the timeout branch,
    [min(10, 2^(a-1))] plus jitter, the same result as a timeout failure at
    that attempt. *)
Lemma non_retryable_takes_timeout_path (env : Env) (rs rs' : RetryState)
    (a : Z) :
  (forall e, outcome_exception rs = Some e ->
             should_retry_on_rate_limit_or_timeout e = false) ->
  outcome_exception rs' = Some ReadTimeout
  \/ outcome_exception rs' = Some ConnectTimeout ->
  attempt_number rs = Some a ->
  attempt_number rs' = Some a ->
  (1 <= a <= 1024)%Z ->
  exists q,
    wait_rate_limit_with_backoff env rs = Ok (Fin q)
    /\ wait_rate_limit_with_backoff env rs' = Ok (Fin q)
    /\ q == Qmin 10 (2 ^ (a - 1))
            + (1 # 10) * Qmin 10 (2 ^ (a - 1)) * random env.
Proof.
  intros Hnr Ht Hn Hn' Ha.
  pose proof (not_retryable_not_rate_limited _ Hnr) as Hr.
  assert (Hr' : rate_limited (outcome_exception rs') = None)
    by (destruct Ht as [-> | ->]; reflexivity).
  rewrite (wait_in_range env rs a Hn Ha), (wait_in_range env rs' a Hn' Ha).
  rewrite Hr, Hr'.
  destruct (with_jitter_Fin env (Qmin 10 (2 ^ (a - 1)))) as (q & -> & Hq).
  exists q. repeat split. exact Hq.
Qed.

(** C9, the code at the failing inputs: from attempt 1025 on the strategy
    is not total on the failures that are not retryable; with no
    exception, with a status of 500 and with an exception of another class
    it raises [OverflowError] where the timeout branch was to give a
    wait. *)
Theorem non_retryable_raises_from_attempt_1025 (env : Env) (n : N) :
  wait_rate_limit_with_backoff env
    {| outcome_exception := None;
       attempt_number := Some (1025 + Z.of_N n)%Z |}
  = Raise OverflowError
  /\ wait_rate_limit_with_backoff env
       (failed_with
          (HTTPStatusError {| status_code := 500; headers := [] |})
          (1025 + Z.of_N n))
     = Raise OverflowError
  /\ wait_rate_limit_with_backoff env
       (failed_with (OtherException "RuntimeError") (1025 + Z.of_N n))
     = Raise OverflowError.
Proof.
  repeat split; apply (wait_overflow env _ (1025 + Z.of_N n));
    solve [reflexivity | lia].
Qed.

End RetryFacts.

(** ** Facts about [safe_filename] *)

Module FilenameFacts.

Import FilenameUtils.

Local Open Scope N_scope.

Lemma drop_while_incl (p : char -> bool) (s : str) (c : char) :
  In c (drop_while p s) -> In c s.
Proof.
  induction s as [|x s IH]; simpl; [tauto|].
  destruct (p x); [right; auto|auto].
Qed.

(** What [drop_while] leaves does not start with a dropped character. *)
Lemma drop_while_head (p : char -> bool) (s t : str) (c : char) :
  drop_while p s = c :: t -> p c = false.
Proof.
  induction s as [|x s IH]; simpl; [discriminate|].
  destruct (p x) eqn:E; [exact IH|].
  intro H. injection H as -> _. exact E.
Qed.

Lemma rstrip_where_incl (p : char -> bool) (s : str) (c : char) :
  In c (rstrip_where p s) -> In c s.
Proof.
  unfold rstrip_where. intro H.
  apply in_rev in H. apply drop_while_incl in H. apply in_rev. exact H.
Qed.

(** What [rstrip] leaves does not end with a stripped character. *)
Lemma rstrip_where_last (p : char -> bool) (s t : str) (c : char) :
  rstrip_where p s = t ++ [c] -> p c = false.
Proof.
  unfold rstrip_where. intro H.
  apply (f_equal (@rev char)) in H.
  rewrite rev_involutive, rev_app_distr in H. simpl in H.
  exact (drop_while_head _ _ _ _ H).
Qed.

(** The name before the extension test: normalised, slashes and white
    space replaced, filtered to the kept characters, trailing dots and
    spaces removed. *)
Lemma safe_filename_shape (U : Unicode) (name default_ext : str) :
  exists stem,
    (safe_filename U name default_ext = stem ++ default_ext
     \/ safe_filename U name default_ext = stem)
    /\ (forall c, In c stem ->
          isalnum U c || char_in c (of_ascii "._- ") = true)
    /\ (forall t c, stem = t ++ [c] -> char_in c (of_ascii ". ") = false).
Proof.
  unfold safe_filename.
  set (kept := filter _ _).
  exists (rstrip_where (fun c => char_in c (of_ascii ". ")) kept).
  split; [|split].
  - destruct (negb _); [left|right]; reflexivity.
  - intros c H. apply rstrip_where_incl in H.
    unfold kept in H. apply filter_In in H. exact (proj2 H).
  - intros t c H. exact (rstrip_where_last _ _ _ _ H).
Qed.

(** C10, as amended: every character of the result of [safe_filename] is
    alphanumeric, one of [.], [_], [-] and the space, or a character of
    [default_ext]; the result holds a [/] or a [\] only where [default_ext]
    holds one (the extension is appended as it is given), so with the
    default [.html] it holds none; and the result is a stem that does not end
    in [.] or in a space, followed or not by [default_ext]. *)
Theorem safe_filename_characters (U : Unicode) (name default_ext : str) :
  (forall c, In c (safe_filename U name default_ext) ->
     isalnum U c = true \/ In c (of_ascii "._- ") \/ In c default_ext)
  /\ (forall c, In c (safe_filename U name default_ext) ->
        c = slash \/ c = backslash -> In c default_ext)
  /\ (forall c, In c (safe_filename U name html_ext) ->
        c <> slash /\ c <> backslash)
  /\ (exists stem,
        (safe_filename U name default_ext = stem ++ default_ext
         \/ safe_filename U name default_ext = stem)
        /\ forall t c, stem = t ++ [c] -> c <> dot /\ c <> space).
Proof.
  assert (Hchars : forall ext c, In c (safe_filename U name ext) ->
            isalnum U c = true \/ In c (of_ascii "._- ") \/ In c ext).
  { intros ext c Hin.
    destruct (safe_filename_shape U name ext) as (stem & Hs & Hk & _).
    assert (Hstem : In c stem \/ In c ext).
    { destruct Hs as [Hs|Hs]; rewrite Hs in Hin;
        [apply in_app_or in Hin; exact Hin|left; exact Hin]. }
    destruct Hstem as [Hin'|Hin']; [|right; right; exact Hin'].
    specialize (Hk c Hin'). apply orb_true_iff in Hk.
    destruct Hk as [Hk|Hk]; [left; exact Hk|right; left].
    unfold char_in in Hk. apply existsb_exists in Hk.
    destruct Hk as (x & Hx & Heq). apply N.eqb_eq in Heq. subst x. exact Hx. }
  assert (Hslash : forall ext c, In c (safe_filename U name ext) ->
            c = slash \/ c = backslash -> In c ext).
  { intros ext c Hin Hc.
    destruct (Hchars ext c Hin) as [Ha|[Hp|He]]; [| |exact He].
    - destruct Hc as [-> | ->]; discriminate Ha.
    - destruct Hc as [-> | ->]; simpl in Hp;
        repeat (destruct Hp as [Hp|Hp]; [discriminate Hp|]); contradiction. }
  split; [exact (Hchars default_ext)|].
  split; [exact (Hslash default_ext)|].
  split.
  - intros c Hin. split; intros ->.
    + specialize (Hslash html_ext slash Hin (or_introl eq_refl)).
      simpl in Hslash.
      repeat (destruct Hslash as [Hs|Hslash]; [discriminate Hs|]).
      contradiction.
    + specialize (Hslash html_ext backslash Hin (or_intror eq_refl)).
      simpl in Hslash.
      repeat (destruct Hslash as [Hs|Hslash]; [discriminate Hs|]).
      contradiction.
  - destruct (safe_filename_shape U name default_ext)
      as (stem & Hs & _ & Hl).
    exists stem. split; [exact Hs|].
    intros t c Ht. specialize (Hl t c Ht).
    split; intros ->; discriminate Hl.
Qed.

(** C10 fails as stated: with the extension [/] the name [a] becomes [a/],
    which holds a slash. *)
Lemma safe_filename_counterexample :
  safe_filename ascii_only (of_ascii "a") (of_ascii "/") = of_ascii "a/"
  /\ In slash (safe_filename ascii_only (of_ascii "a") (of_ascii "/")).
Proof.
  split; [reflexivity|]. right; left; reflexivity.
Qed.

End FilenameFacts.

(** ** Further properties of the wait strategy *)

Module RetryProperties.

Import Py PyFacts RetryHelpers RetryFacts.

Local Open Scope string_scope.
Local Open Scope Q_scope.

(** A wait the header block yields is returned with jitter at every attempt
    from 1 to 1024: the attempt has no part in it. *)
Lemma header_value_any_attempt (env : Env) (rs rs' : RetryState)
    (response : Response) (b : Q) (a a' : Z) :
  outcome_exception rs = Some (HTTPStatusError response) ->
  outcome_exception rs' = Some (HTTPStatusError response) ->
  status_code response = 429%Z ->
  header_wait env response = Ok (Some (Fin b)) ->
  attempt_number rs = Some a -> attempt_number rs' = Some a' ->
  (1 <= a <= 1024)%Z -> (1 <= a' <= 1024)%Z ->
  exists q,
    wait_rate_limit_with_backoff env rs = Ok (Fin q)
    /\ wait_rate_limit_with_backoff env rs' = Ok (Fin q)
    /\ q == b + (1 # 10) * b * random env.
Proof.
  intros He He' Hc Hw Hn Hn' Ha Ha'.
  rewrite (wait_in_range env rs a Hn Ha), (wait_in_range env rs' a' Hn' Ha').
  rewrite He, He', (rate_limited_429 _ Hc), Hw. cbn [bind].
  destruct (with_jitter_Fin env b) as (q & -> & Hq).
  exists q. repeat split. exact Hq.
Qed.

(** Two 429 failures whose header blocks fall through wait the same at the
    same attempt. *)
Lemma fall_through_equal (env : Env) (rs rs' : RetryState)
    (response response' : Response) (a : Z) :
  outcome_exception rs = Some (HTTPStatusError response) ->
  status_code response = 429%Z ->
  header_wait env response = Ok None ->
  outcome_exception rs' = Some (HTTPStatusError response') ->
  status_code response' = 429%Z ->
  header_wait env response' = Ok None ->
  attempt_number rs = Some a -> attempt_number rs' = Some a ->
  (1 <= a)%Z ->
  wait_rate_limit_with_backoff env rs = wait_rate_limit_with_backoff env rs'.
Proof.
  intros He Hc Hw He' Hc' Hw' Hn Hn' Ha.
  destruct (Z.le_gt_cases a 1024) as [Hle|Hgt].
  - rewrite (wait_in_range env rs a Hn ltac:(lia)),
            (wait_in_range env rs' a Hn' ltac:(lia)).
    rewrite He, He', (rate_limited_429 _ Hc), (rate_limited_429 _ Hc'),
            Hw, Hw'.
    reflexivity.
  - rewrite (wait_overflow env rs a Hn ltac:(lia)),
            (wait_overflow env rs' a Hn' ltac:(lia)).
    reflexivity.
Qed.

(** X1: a [Retry-After] header that [float] reads as a finite number [w],
    of any sign, is honoured at every attempt from 1 to 1024 with the same
    wait: [w] raised to at least 1.0 and capped at 120.0, plus the jitter
    of 10% of that base times the draw; the attempt number has no part in
    it. *)
Theorem numeric_retry_after_wait (env : Env) (rs rs' : RetryState)
    (response : Response) (h : string) (w : Q) (a a' : Z) :
  0 <= random env < 1 ->
  outcome_exception rs = Some (HTTPStatusError response) ->
  outcome_exception rs' = Some (HTTPStatusError response) ->
  status_code response = 429%Z ->
  headers_get (headers response) "Retry-After" = Some h ->
  float h = Ok (Fin w) ->
  attempt_number rs = Some a -> attempt_number rs' = Some a' ->
  (1 <= a <= 1024)%Z -> (1 <= a' <= 1024)%Z ->
  exists q,
    wait_rate_limit_with_backoff env rs = Ok (Fin q)
    /\ wait_rate_limit_with_backoff env rs' = Ok (Fin q)
    /\ q == Qmin (Qmax w 1) 120
            + (1 # 10) * Qmin (Qmax w 1) 120 * random env
    /\ Qmin (Qmax w 1) 120 <= q <= (11 # 10) * Qmin (Qmax w 1) 120.
Proof.
  intros Hu He He' Hc Hh Hf Hn Hn' Ha Ha'.
  pose proof (header_wait_number env response h w Hh Hf) as Hw.
  destruct (header_value_any_attempt env rs rs' response _ a a'
              He He' Hc Hw Hn Hn' Ha Ha') as (q & Hq & Hq' & Hv).
  exists q. repeat split; try assumption;
    apply (jitter_bounds (Qmin (Qmax w 1) 120) (random env) q);
    try assumption;
    split_max w 1; split_min (Qmax w 1) 120; lra.
Qed.

Lemma numeric_retry_after_wait_witness :
  exists q,
    wait_rate_limit_with_backoff (env_at 0 (1 # 2))
      (rate_limited_at [("Retry-After", "7.5")] 1) = Ok (Fin q)
    /\ wait_rate_limit_with_backoff (env_at 0 (1 # 2))
         (rate_limited_at [("Retry-After", "7.5")] 9) = Ok (Fin q)
    /\ q == Qmin (Qmax (75 # 10) 1) 120
            + (1 # 10) * Qmin (Qmax (75 # 10) 1) 120
              * random (env_at 0 (1 # 2))
    /\ Qmin (Qmax (75 # 10) 1) 120 <= q
       <= (11 # 10) * Qmin (Qmax (75 # 10) 1) 120.
Proof.
  apply (numeric_retry_after_wait (env_at 0 (1 # 2))
           (rate_limited_at [("Retry-After", "7.5")] 1)
           (rate_limited_at [("Retry-After", "7.5")] 9)
           (too_many_requests [("Retry-After", "7.5")]) "7.5" (75 # 10) 1 9).
  - simpl; lra.
  - reflexivity.
  - reflexivity.
  - reflexivity.
  - reflexivity.
  - reflexivity.
  - reflexivity.
  - reflexivity.
  - lia.
  - lia.
Defined.

(** X2: a [Retry-After] header that only the date parser reads, as a date
    with time zone [d] seconds from now, is honoured at every attempt from
    1 to 1024: the wait is [d] floored at 0.0, raised to at least 1.0 and
    capped at 120.0, plus jitter; for [d] between 1 and 120 seconds it lies
    in [d, 1.1 * d]. *)
Theorem date_retry_after_wait (env : Env) (rs : RetryState)
    (response : Response) (h : string) (e : exn) (dt : datetime) (a : Z) :
  0 <= random env < 1 ->
  outcome_exception rs = Some (HTTPStatusError response) ->
  status_code response = 429%Z ->
  headers_get (headers response) "Retry-After" = Some h ->
  h <> "" ->
  float h = Raise e ->
  parsedate_to_datetime env h = Ok dt ->
  tz_aware dt = true ->
  attempt_number rs = Some a ->
  (1 <= a <= 1024)%Z ->
  exists q,
    wait_rate_limit_with_backoff env rs = Ok (Fin q)
    /\ q == Qmin (Qmax (Qmax (timestamp dt - utc_now env) 0) 1) 120
            + (1 # 10)
              * Qmin (Qmax (Qmax (timestamp dt - utc_now env) 0) 1) 120
              * random env
    /\ (1 <= timestamp dt - utc_now env <= 120 ->
        timestamp dt - utc_now env <= q
        <= (11 # 10) * (timestamp dt - utc_now env)).
Proof.
  intros Hu He Hc Hh Hne Hf Hd Htz Hn Ha.
  pose proof (header_wait_date env response h e dt Hh Hne Hf Hd Htz) as Hw.
  destruct (header_path_value env rs response _ a He Hc Hw Hn Ha)
    as (q & Hq & Hv).
  exists q. split; [exact Hq|]. split; [exact Hv|].
  set (d := timestamp dt - utc_now env) in *.
  intros Hd1.
  apply (jitter_bounds d (random env) q); [lra|exact Hu|].
  rewrite Hv.
  assert (Hb : Qmin (Qmax (Qmax d 0) 1) 120 == d).
  { split_max d 0; split_max (Qmax d 0) 1;
      split_min (Qmax (Qmax d 0) 1) 120; lra. }
  rewrite Hb. reflexivity.
Qed.

Lemma date_retry_after_wait_witness :
  exists q,
    wait_rate_limit_with_backoff (env_at (1445412480 - 10) (1 # 2))
      (rate_limited_at
         [("Retry-After", "Wed, 21 Oct 2015 07:28:00 GMT")] 3)
    = Ok (Fin q)
    /\ 10 <= q <= 11.
Proof.
  destruct (date_retry_after_wait (env_at (1445412480 - 10) (1 # 2))
              (rate_limited_at
                 [("Retry-After", "Wed, 21 Oct 2015 07:28:00 GMT")] 3)
              (too_many_requests
                 [("Retry-After", "Wed, 21 Oct 2015 07:28:00 GMT")])
              "Wed, 21 Oct 2015 07:28:00 GMT" ValueError
              {| tz_aware := true; timestamp := 1445412480 |} 3)
    as (q & Hq & _ & Hb).
  - simpl; lra.
  - reflexivity.
  - reflexivity.
  - reflexivity.
  - discriminate.
  - reflexivity.
  - reflexivity.
  - reflexivity.
  - reflexivity.
  - lia.
  - exists q. split; [exact Hq|].
    simpl in Hb. lra.
Defined.

(** X3: a [Retry-After] header that is present but empty, or that [float]
    reads as NaN, or that the date parser reads as a date without time
    zone, is dropped: the 429 failure gets exactly the wait of a 429 failure
    without the header at the same attempt and draw. *)
Theorem unusable_retry_after_falls_back (env : Env) (rs rs' : RetryState)
    (response response' : Response) (h : string) (a : Z) :
  outcome_exception rs = Some (HTTPStatusError response) ->
  status_code response = 429%Z ->
  headers_get (headers response) "Retry-After" = Some h ->
  h = ""
  \/ float h = Ok NaN
  \/ (exists e dt, float h = Raise e
        /\ parsedate_to_datetime env h = Ok dt
        /\ tz_aware dt = false) ->
  outcome_exception rs' = Some (HTTPStatusError response') ->
  status_code response' = 429%Z ->
  headers_get (headers response') "Retry-After" = None ->
  attempt_number rs = Some a ->
  attempt_number rs' = Some a ->
  (1 <= a)%Z ->
  wait_rate_limit_with_backoff env rs = wait_rate_limit_with_backoff env rs'.
Proof.
  intros He Hc Hh Hbad He' Hc' Hh' Hn Hn' Ha.
  apply (fall_through_equal env rs rs' response response' a);
    try assumption.
  - unfold header_wait. rewrite Hh.
    destruct Hbad as [->|[Hf|(e & dt & Hf & Hd & Htz)]].
    + reflexivity.
    + destruct (str_truthy h); [|reflexivity].
      unfold retry_after_seconds. rewrite Hf. reflexivity.
    + destruct (str_truthy h); [|reflexivity].
      unfold retry_after_seconds. rewrite Hf.
      apply float_raises_ValueError in Hf. subst e. simpl.
      rewrite Hd. simpl. unfold seconds_until. rewrite Htz. reflexivity.
  - apply header_wait_unusable. left. exact Hh'.
Qed.

Lemma unusable_retry_after_falls_back_witness :
  wait_rate_limit_with_backoff (env_at 0 (1 # 2))
    (rate_limited_at [("Retry-After", "nan")] 4)
  = wait_rate_limit_with_backoff (env_at 0 (1 # 2)) (rate_limited_at [] 4).
Proof.
  apply (unusable_retry_after_falls_back (env_at 0 (1 # 2))
           (rate_limited_at [("Retry-After", "nan")] 4)
           (rate_limited_at [] 4)
           (too_many_requests [("Retry-After", "nan")])
           (too_many_requests []) "nan" 4).
  - reflexivity.
  - reflexivity.
  - reflexivity.
  - right; left. reflexivity.
  - reflexivity.
  - reflexivity.
  - reflexivity.
  - reflexivity.
  - reflexivity.
  - lia.
Defined.

(** X4: an infinite [Retry-After] never gives an infinite wait.  Between
    attempts 1 and 1024 a header that [float] reads as plus infinity waits
    the cap of 120.0 seconds plus jitter, a value in [120, 132], and one
    read as minus infinity waits the minimum of 1.0 second plus jitter, a
    value in [1, 1.1]. *)
Theorem infinite_retry_after_wait (env : Env) (rs : RetryState)
    (response : Response) (h : string) (a : Z) :
  0 <= random env < 1 ->
  outcome_exception rs = Some (HTTPStatusError response) ->
  status_code response = 429%Z ->
  headers_get (headers response) "Retry-After" = Some h ->
  attempt_number rs = Some a ->
  (1 <= a <= 1024)%Z ->
  (float h = Ok PInf ->
   exists q, wait_rate_limit_with_backoff env rs = Ok (Fin q)
             /\ q == 120 + 12 * random env /\ 120 <= q <= 132)
  /\ (float h = Ok NInf ->
      exists q, wait_rate_limit_with_backoff env rs = Ok (Fin q)
                /\ q == 1 + (1 # 10) * random env /\ 1 <= q <= 11 # 10).
Proof.
  intros Hu He Hc Hh Hn Ha.
  assert (Hblock : forall x b,
            float h = Ok x ->
            (truthy (max x (Fin 1)) && fgt (max x (Fin 1)) (Fin 0))%bool
            = true ->
            min (max x (Fin 1)) (Fin 120) = Fin b ->
            header_wait env response = Ok (Some (Fin b))).
  { intros x b Hf Ht Hm. unfold header_wait. rewrite Hh.
    destruct h as [|c h']; [discriminate Hf|]. simpl str_truthy. cbv iota.
    unfold retry_after_seconds. rewrite Hf. cbn [bind try_except].
    rewrite Ht, Hm. reflexivity. }
  split; intro Hf.
  - pose proof (Hblock PInf 120 Hf eq_refl eq_refl) as Hw.
    destruct (header_path_value env rs response 120 a He Hc Hw Hn Ha)
      as (q & Hq & Hv).
    exists q. split; [exact Hq|]. split; lra.
  - pose proof (Hblock NInf 1 Hf eq_refl eq_refl) as Hw.
    destruct (header_path_value env rs response 1 a He Hc Hw Hn Ha)
      as (q & Hq & Hv).
    exists q. split; [exact Hq|]. split; lra.
Qed.

Lemma infinite_retry_after_wait_witness :
  exists q,
    wait_rate_limit_with_backoff (env_at 0 (1 # 2))
      (rate_limited_at [("Retry-After", "Infinity")] 2) = Ok (Fin q)
    /\ q == 120 + 12 * random (env_at 0 (1 # 2)) /\ 120 <= q <= 132.
Proof.
  apply (infinite_retry_after_wait (env_at 0 (1 # 2))
           (rate_limited_at [("Retry-After", "Infinity")] 2)
           (too_many_requests [("Retry-After", "Infinity")]) "Infinity" 2).
  - simpl; lra.
  - reflexivity.
  - reflexivity.
  - reflexivity.
  - reflexivity.
  - lia.
  - reflexivity.
Defined.

(** X5: between attempts 1 and 1024 the strategy never retries in less than
    a second: whatever the failure, its headers, the clock and the draw in
    [0, 1), the wait is a finite number of at least 1.0 second. *)
Theorem wait_at_least_one_second (env : Env) (rs : RetryState) (a : Z) :
  0 <= random env < 1 ->
  attempt_number rs = Some a ->
  (1 <= a <= 1024)%Z ->
  exists q, wait_rate_limit_with_backoff env rs = Ok (Fin q) /\ 1 <= q.
Proof.
  intros Hu Hn Ha.
  destruct (wait_value_in_range env rs a Hu Hn Ha) as (q & Hq & H1 & _).
  exists q. split; assumption.
Qed.

Lemma wait_at_least_one_second_witness :
  exists q,
    wait_rate_limit_with_backoff (env_at 0 0)
      (rate_limited_at [("Retry-After", "0.001")] 1) = Ok (Fin q)
    /\ 1 <= q.
Proof.
  apply (wait_at_least_one_second (env_at 0 0)
           (rate_limited_at [("Retry-After", "0.001")] 1) 1).
  - simpl; lra.
  - reflexivity.
  - lia.
Defined.

(** X6: a retry state without [attempt_number], or with the attempt number
    0, is handled as the first attempt: the strategy gives what it gives at
    attempt 1, for every failure. *)
Theorem missing_attempt_is_first_attempt (env : Env)
    (exception : option Exception) :
  wait_rate_limit_with_backoff env
    {| outcome_exception := exception; attempt_number := None |}
  = wait_rate_limit_with_backoff env
      {| outcome_exception := exception; attempt_number := Some 1%Z |}
  /\ wait_rate_limit_with_backoff env
       {| outcome_exception := exception; attempt_number := Some 0%Z |}
     = wait_rate_limit_with_backoff env
         {| outcome_exception := exception; attempt_number := Some 1%Z |}.
Proof.
  split; reflexivity.
Qed.

(** X7: the two calls of tenacity's [wait_exponential] are never reached
    from attempt -1073 on, so at every attempt a retry loop can give (1 and
    up) the result does not depend on what [wait_exponential] does:
    replacing it by any other function leaves the result of the strategy
    unchanged. *)
Theorem wait_exponential_not_reached (env : Env) (rs : RetryState)
    (other : Z -> Z -> Z -> RetryState -> result pyfloat) :
  (-1073 <= attempt_of rs)%Z ->
  wait_rate_limit_with_backoff env rs
  = wait_rate_limit_with_backoff
      {| parsedate_to_datetime := parsedate_to_datetime env;
         wait_exponential := other;
         utc_now := utc_now env;
         random := random env |}
      rs.
Proof.
  intro Ha. unfold wait_rate_limit_with_backoff, pow2.
  destruct (Z.leb_spec 1024 (attempt_of rs - 1)); [reflexivity|].
  destruct (Z.leb_spec (attempt_of rs - 1) (-1075)); [lia|].
  cbn [bind]. rewrite !min_Fin.
  assert (H2 : 0 < 2 ^ (attempt_of rs - 1)) by (apply Qpower_0_lt; lra).
  rewrite !truthy_pos.
  - reflexivity.
  - split_min 10 (2 ^ (attempt_of rs - 1)); lra.
  - split_min 30 (2 ^ (attempt_of rs - 1)); lra.
Qed.

Lemma wait_exponential_not_reached_witness :
  wait_rate_limit_with_backoff (env_at 0 (1 # 2)) (failed_with ReadTimeout 2)
  = wait_rate_limit_with_backoff
      {| parsedate_to_datetime := parsedate_to_datetime (env_at 0 (1 # 2));
         wait_exponential := fun _ _ _ _ => Raise AttributeError;
         utc_now := utc_now (env_at 0 (1 # 2));
         random := random (env_at 0 (1 # 2)) |}
      (failed_with ReadTimeout 2).
Proof.
  apply (wait_exponential_not_reached (env_at 0 (1 # 2))
           (failed_with ReadTimeout 2)
           (fun _ _ _ _ => Raise AttributeError)).
  vm_compute. discriminate.
Defined.

(** The exponential base below and at its cap: [2^(a-1)] while that is
    under the cap, the cap afterwards. *)
Lemma exp_base_schedule (cap : Q) (k a : Z) :
  (0 <= k)%Z -> 2 ^ k <= cap -> cap <= 2 ^ (k + 1) ->
  ((a - 1 <= k)%Z -> Qmin cap (2 ^ (a - 1)) == 2 ^ (a - 1))
  /\ ((k + 1 <= a - 1)%Z -> Qmin cap (2 ^ (a - 1)) == cap).
Proof.
  intros Hk Hlo Hhi. split; intro Ha.
  - assert (2 ^ (a - 1) <= 2 ^ k) by (apply Qpower_le_compat_l; [lia|lra]).
    split_min cap (2 ^ (a - 1)); lra.
  - assert (2 ^ (k + 1) <= 2 ^ (a - 1))
      by (apply Qpower_le_compat_l; [lia|lra]).
    split_min cap (2 ^ (a - 1)); lra.
Qed.

(** X8: the backoff of a timeout failure doubles from 1 second at attempt
    1 to 8 seconds at attempt 4 and stays at the cap of 10 seconds from
    attempt 5 to attempt 1024 (each with its jitter of 10% times the draw):
    the first wait is 1 second, not 2. *)
Theorem timeout_backoff_schedule (env : Env) (rs : RetryState)
    (exception : Exception) (a : Z) :
  outcome_exception rs = Some exception ->
  should_retry_on_timeout exception = true ->
  attempt_number rs = Some a ->
  (1 <= a <= 1024)%Z ->
  exists q,
    wait_rate_limit_with_backoff env rs = Ok (Fin q)
    /\ ((a <= 4)%Z ->
        q == 2 ^ (a - 1) + (1 # 10) * 2 ^ (a - 1) * random env)
    /\ ((5 <= a)%Z -> q == 10 + random env).
Proof.
  intros He Ht Hn Ha.
  assert (Hr : rate_limited (outcome_exception rs) = None)
    by (rewrite He; destruct exception; try discriminate; reflexivity).
  destruct (timeout_path_value env rs a Hr Hn Ha) as (q & Hq & Hv).
  exists q. split; [exact Hq|].
  destruct (exp_base_schedule 10 3 a ltac:(lia)
              ltac:(vm_compute; discriminate)
              ltac:(vm_compute; discriminate)) as [Hlow Hcap].
  split; intro H.
  - rewrite Hv, (Hlow ltac:(lia)). reflexivity.
  - rewrite Hv, (Hcap ltac:(lia)). ring.
Qed.

Lemma timeout_backoff_schedule_witness :
  exists q,
    wait_rate_limit_with_backoff (env_at 0 (1 # 2))
      (failed_with ConnectTimeout 1) = Ok (Fin q)
    /\ ((1 <= 4)%Z ->
        q == 2 ^ (1 - 1)
             + (1 # 10) * 2 ^ (1 - 1) * random (env_at 0 (1 # 2)))
    /\ ((5 <= 1)%Z -> q == 10 + random (env_at 0 (1 # 2))).
Proof.
  apply (timeout_backoff_schedule (env_at 0 (1 # 2))
           (failed_with ConnectTimeout 1) ConnectTimeout 1).
  - reflexivity.
  - reflexivity.
  - reflexivity.
  - lia.
Defined.

(** X9: the backoff of a 429 failure without [Retry-After] header doubles
    from 1 second at attempt 1 to 16 seconds at attempt 5 and stays at the
    cap of 30 seconds from attempt 6 to attempt 1024 (each with its jitter
    of 10% times the draw). *)
Theorem fallback_429_schedule (env : Env) (rs : RetryState)
    (response : Response) (a : Z) :
  outcome_exception rs = Some (HTTPStatusError response) ->
  status_code response = 429%Z ->
  headers_get (headers response) "Retry-After" = None ->
  attempt_number rs = Some a ->
  (1 <= a <= 1024)%Z ->
  exists q,
    wait_rate_limit_with_backoff env rs = Ok (Fin q)
    /\ ((a <= 5)%Z ->
        q == 2 ^ (a - 1) + (1 # 10) * 2 ^ (a - 1) * random env)
    /\ ((6 <= a)%Z -> q == 30 + 3 * random env).
Proof.
  intros He Hc Hh Hn Ha.
  assert (Hw : header_wait env response = Ok None)
    by (apply header_wait_unusable; left; exact Hh).
  destruct (fallback_429_value env rs response a He Hc Hw Hn Ha)
    as (q & Hq & Hv).
  exists q. split; [exact Hq|].
  destruct (exp_base_schedule 30 4 a ltac:(lia)
              ltac:(vm_compute; discriminate)
              ltac:(vm_compute; discriminate)) as [Hlow Hcap].
  split; intro H.
  - rewrite Hv, (Hlow ltac:(lia)). reflexivity.
  - rewrite Hv, (Hcap ltac:(lia)). ring.
Qed.

Lemma fallback_429_schedule_witness :
  exists q,
    wait_rate_limit_with_backoff (env_at 0 (1 # 2))
      (rate_limited_at [] 7) = Ok (Fin q)
    /\ ((7 <= 5)%Z ->
        q == 2 ^ (7 - 1)
             + (1 # 10) * 2 ^ (7 - 1) * random (env_at 0 (1 # 2)))
    /\ ((6 <= 7)%Z -> q == 30 + 3 * random (env_at 0 (1 # 2))).
Proof.
  apply (fallback_429_schedule (env_at 0 (1 # 2))
           (rate_limited_at [] 7) (too_many_requests []) 7).
  - reflexivity.
  - reflexivity.
  - reflexivity.
  - reflexivity.
  - lia.
Defined.

(** X10: the strategy does not ask whether the failure is retryable.
    Between attempts 1 and 1024 every failure the retry predicate rejects (a
    status other than 429, a write or pool timeout, any other exception)
    and a missing exception get the wait of a read or connect timeout at
    that attempt, [min(10, 2^(a-1))] plus jitter. *)
Theorem rejected_failure_waits_like_timeout (env : Env)
    (rs rs' : RetryState) (exception' : Exception) (a : Z) :
  (forall e, outcome_exception rs = Some e ->
             should_retry_on_rate_limit_or_timeout e = false) ->
  outcome_exception rs' = Some exception' ->
  should_retry_on_timeout exception' = true ->
  attempt_number rs = Some a ->
  attempt_number rs' = Some a ->
  (1 <= a <= 1024)%Z ->
  exists q,
    wait_rate_limit_with_backoff env rs = Ok (Fin q)
    /\ wait_rate_limit_with_backoff env rs' = Ok (Fin q)
    /\ q == Qmin 10 (2 ^ (a - 1))
            + (1 # 10) * Qmin 10 (2 ^ (a - 1)) * random env.
Proof.
  intros Hnr He' Ht' Hn Hn' Ha.
  pose proof (not_retryable_not_rate_limited _ Hnr) as Hr.
  assert (Hr' : rate_limited (outcome_exception rs') = None)
    by (rewrite He'; destruct exception'; try discriminate; reflexivity).
  rewrite (wait_in_range env rs a Hn Ha), (wait_in_range env rs' a Hn' Ha).
  rewrite Hr, Hr'.
  destruct (with_jitter_Fin env (Qmin 10 (2 ^ (a - 1)))) as (q & -> & Hq).
  exists q. repeat split. exact Hq.
Qed.

Lemma rejected_failure_waits_like_timeout_witness :
  exists q,
    wait_rate_limit_with_backoff (env_at 0 (1 # 2))
      (failed_with
         (HTTPStatusError
            {| status_code := 503; headers := [("Retry-After", "60")] |}) 3)
    = Ok (Fin q)
    /\ wait_rate_limit_with_backoff (env_at 0 (1 # 2))
         (failed_with ReadTimeout 3) = Ok (Fin q)
    /\ q == Qmin 10 (2 ^ (3 - 1))
            + (1 # 10) * Qmin 10 (2 ^ (3 - 1)) * random (env_at 0 (1 # 2)).
Proof.
  apply (rejected_failure_waits_like_timeout (env_at 0 (1 # 2))
           (failed_with
              (HTTPStatusError
                 {| status_code := 503;
                    headers := [("Retry-After", "60")] |}) 3)
           (failed_with ReadTimeout 3) ReadTimeout 3).
  - intros e H. injection H as <-. reflexivity.
  - reflexivity.
  - reflexivity.
  - reflexivity.
  - reflexivity.
  - lia.
Defined.

End RetryProperties.

(** ** Further properties of [safe_filename] *)

Module FilenameProperties.

Import FilenameUtils FilenameFacts.

Local Open Scope N_scope.

Lemma drop_while_length (p : char -> bool) (s : str) :
  (List.length (drop_while p s) <= List.length s)%nat.
Proof.
  induction s as [|x s IH]; simpl; [lia|].
  destruct (p x); simpl; lia.
Qed.

Lemma rstrip_where_length (p : char -> bool) (s : str) :
  (List.length (rstrip_where p s) <= List.length s)%nat.
Proof.
  unfold rstrip_where. rewrite length_rev.
  pose proof (drop_while_length p (rev s)) as H.
  rewrite length_rev in H. exact H.
Qed.

Lemma sub_runs_from_length (b : bool) (p : char -> bool) (r : char)
    (s : str) :
  (List.length (sub_runs_from b p r s) <= List.length s)%nat.
Proof.
  revert b. induction s as [|x s IH]; intro b; simpl; [lia|].
  destruct (p x); [destruct b|]; simpl;
    try (pose proof (IH true)); try (pose proof (IH false)); lia.
Qed.

(** Nothing is dropped from a string none of whose characters is in the
    class. *)
Lemma drop_while_none (p : char -> bool) (s : str) :
  (forall c, In c s -> p c = false) -> drop_while p s = s.
Proof.
  destruct s as [|x s]; [reflexivity|].
  intro H. simpl. rewrite (H x (or_introl eq_refl)). reflexivity.
Qed.

(** Everything is dropped from a string all of whose characters are in the
    class. *)
Lemma drop_while_all (p : char -> bool) (s : str) :
  (forall c, In c s -> p c = true) -> drop_while p s = [].
Proof.
  induction s as [|x s IH]; [reflexivity|].
  intro H. simpl. rewrite (H x (or_introl eq_refl)).
  apply IH. intros c Hc. apply H. right. exact Hc.
Qed.

Lemma sub_runs_from_none (b : bool) (p : char -> bool) (r : char)
    (s : str) :
  (forall c, In c s -> p c = false) -> sub_runs_from b p r s = s.
Proof.
  revert b. induction s as [|x s IH]; intros b H; [reflexivity|].
  simpl. rewrite (H x (or_introl eq_refl)). f_equal.
  apply IH. intros c Hc. apply H. right. exact Hc.
Qed.

(** What a substitution of runs leaves: the replacement, or a character of
    the string that is not in the class. *)
Lemma sub_runs_from_In (b : bool) (p : char -> bool) (r : char) (s : str)
    (c : char) :
  In c (sub_runs_from b p r s) -> c = r \/ (In c s /\ p c = false).
Proof.
  revert b. induction s as [|x s IH]; intros b; simpl; [tauto|].
  destruct (p x) eqn:E; [destruct b|]; simpl.
  - intro H. destruct (IH _ H) as [?|[? ?]]; auto.
  - intros [H|H]; [left; auto|].
    destruct (IH _ H) as [?|[? ?]]; auto.
  - intros [H|H]; [subst; auto|].
    destruct (IH _ H) as [?|[? ?]]; auto.
Qed.

Lemma filter_all (f : char -> bool) (s : str) :
  (forall c, In c s -> f c = true) -> filter f s = s.
Proof.
  induction s as [|x s IH]; [reflexivity|].
  intro H. simpl. rewrite (H x (or_introl eq_refl)). f_equal.
  apply IH. intros c Hc. apply H. right. exact Hc.
Qed.

(** A prefix is made of characters of the string. *)
Lemma starts_with_incl (s prefix : str) (c : char) :
  starts_with s prefix = true -> In c prefix -> In c s.
Proof.
  revert s. induction prefix as [|x prefix IH]; intros s H Hc;
    [contradiction|].
  destruct s as [|y s]; [discriminate|].
  simpl in H. apply andb_true_iff in H. destruct H as [Hy H].
  apply N.eqb_eq in Hy. subst y.
  destruct Hc as [->|Hc]; [left; reflexivity|right; apply IH; assumption].
Qed.

Lemma endswith_incl (s suffix : str) (c : char) :
  endswith s suffix = true -> In c suffix -> In c s.
Proof.
  unfold endswith. intros H Hc. apply in_rev.
  apply (starts_with_incl _ _ _ H). apply in_rev in Hc. exact Hc.
Qed.

Lemma endswith_nil (s : str) : endswith s [] = true.
Proof. unfold endswith. simpl. destruct (rev s); reflexivity. Qed.

(** The sanitised name is what an empty [default_ext] gives, and the
    extension is added to it unless its lower case ends with the
    extension. *)
Lemma safe_filename_split (U : Unicode) (name default_ext : str) :
  safe_filename U name default_ext =
  if endswith (lower U (safe_filename U name [])) default_ext
  then safe_filename U name []
  else safe_filename U name [] ++ default_ext.
Proof.
  unfold safe_filename.
  set (stem := rstrip_where _ _).
  rewrite endswith_nil. simpl.
  destruct (endswith (lower U stem) default_ext); reflexivity.
Qed.

(** [lower] of [ascii_only] leaves no upper-case ASCII letter. *)
Lemma ascii_only_lower_no_upper (s : str) (x : char) :
  In x (lower ascii_only s) -> (65 <=? x) && (x <=? 90) = false.
Proof.
  simpl. intro H. apply in_map_iff in H. destruct H as (y & <- & _).
  destruct ((65 <=? y) && (y <=? 90)) eqn:E; [|exact E].
  apply andb_false_iff. right. apply N.leb_gt.
  apply andb_true_iff in E. destruct E as [E _]. apply N.leb_le in E. lia.
Qed.

(** X11: an extension with an upper-case ASCII letter is never recognised
    in the name, because the name is lower-cased for the test and the
    extension is not: when [lower] yields no upper-case ASCII letter, such
    a [default_ext] is appended to every sanitised name, also to one that
    ends with it already. *)
Theorem uppercase_extension_always_appended (U : Unicode)
    (name default_ext : str) (c : char) :
  (forall s x, In x (lower U s) -> (65 <=? x) && (x <=? 90) = false) ->
  In c default_ext ->
  (65 <=? c) && (c <=? 90) = true ->
  safe_filename U name default_ext = safe_filename U name [] ++ default_ext.
Proof.
  intros Hlow Hc Hup. rewrite safe_filename_split.
  destruct (endswith (lower U (safe_filename U name [])) default_ext) eqn:E;
    [|reflexivity].
  pose proof (endswith_incl _ _ c E Hc) as Hin.
  rewrite (Hlow _ _ Hin) in Hup. discriminate Hup.
Qed.

Lemma uppercase_extension_always_appended_witness :
  safe_filename ascii_only (of_ascii "report.PDF") (of_ascii ".PDF")
  = safe_filename ascii_only (of_ascii "report.PDF") [] ++ of_ascii ".PDF".
Proof.
  apply (uppercase_extension_always_appended ascii_only
           (of_ascii "report.PDF") (of_ascii ".PDF") 80).
  - exact ascii_only_lower_no_upper.
  - simpl. tauto.
  - reflexivity.
Defined.

(** X12: a name with nothing to keep gives a file name that is the bare
    extension.  When every character of the normalised name is white
    space, a dot, or a character that is neither kept nor a slash (the
    empty name is one case), and [lower] maps the empty string to itself,
    the result is [default_ext] alone. *)
Theorem blank_name_gives_bare_extension (U : Unicode)
    (name default_ext : str) :
  lower U [] = [] ->
  (forall c, In c (normalize_NFKC U name) ->
     isspace U c = true
     \/ c = dot
     \/ (isalnum U c || char_in c (of_ascii "._- ") = false
         /\ is_slash c = false)) ->
  safe_filename U name default_ext = default_ext.
Proof.
  intros Hlow Hblank.
  assert (Hstem : safe_filename U name [] = []).
  { unfold safe_filename. rewrite endswith_nil. simpl.
    set (s1 := strip U (normalize_NFKC U name)).
    assert (H1 : forall c, In c s1 -> In c (normalize_NFKC U name)).
    { intros c Hc. unfold s1, strip in Hc.
      apply rstrip_where_incl in Hc. apply drop_while_incl in Hc. exact Hc. }
    assert (Hns : forall c, In c s1 -> is_slash c = false).
    { intros c Hc. destruct (Hblank c (H1 c Hc)) as [Hs|[->|[_ Hs]]];
        [|reflexivity|exact Hs].
      destruct (is_slash c) eqn:E; [|reflexivity].
      unfold is_slash in E. apply orb_true_iff in E.
      destruct E as [E|E]; apply N.eqb_eq in E; subst c; discriminate Hs. }
    unfold sub_runs at 2. rewrite (sub_runs_from_none _ _ _ _ Hns).
    unfold rstrip_where. rewrite drop_while_all; [reflexivity|].
    intros c Hc. apply in_rev in Hc. apply filter_In in Hc.
    destruct Hc as [Hc Hk].
    apply sub_runs_from_In in Hc. destruct Hc as [->|[Hc Hsp]];
      [reflexivity|].
    destruct (Hblank c (H1 c Hc)) as [Hs|[->|[Hs _]]];
      [congruence|reflexivity|].
    change (isalnum U c || char_in c (of_ascii "._- ") = true) in Hk.
    congruence. }
  rewrite safe_filename_split, Hstem, Hlow.
  unfold endswith. simpl.
  destruct (rev default_ext) as [|x t] eqn:E; simpl.
  - apply (f_equal (@rev char)) in E. rewrite rev_involutive in E.
    symmetry. exact E.
  - reflexivity.
Qed.

Lemma blank_name_gives_bare_extension_witness :
  safe_filename ascii_only (of_ascii "  ?*. .. ") html_ext = html_ext.
Proof.
  apply (blank_name_gives_bare_extension ascii_only
           (of_ascii "  ?*. .. ") html_ext).
  - reflexivity.
  - simpl. intros c H.
    repeat (destruct H as [<-|H];
            [first [left; reflexivity
                   |right; left; reflexivity
                   |right; right; split; reflexivity]|]).
    contradiction.
Defined.

(** X13: [safe_filename] never makes a name longer than the normalised
    name followed by the extension: the result has at most as many
    characters as the NFKC form of the name and [default_ext] together. *)
Theorem safe_filename_length (U : Unicode) (name default_ext : str) :
  (List.length (safe_filename U name default_ext)
   <= List.length (normalize_NFKC U name) + List.length default_ext)%nat.
Proof.
  assert (Hstem : (List.length (safe_filename U name [])
                   <= List.length (normalize_NFKC U name))%nat).
  { unfold safe_filename. rewrite endswith_nil. simpl.
    etransitivity; [apply rstrip_where_length|].
    etransitivity; [apply filter_length_le|].
    unfold sub_runs.
    etransitivity; [apply sub_runs_from_length|].
    etransitivity; [apply sub_runs_from_length|].
    unfold strip.
    etransitivity; [apply rstrip_where_length|].
    apply drop_while_length. }
  rewrite safe_filename_split.
  destruct (endswith _ _); [|rewrite length_app]; lia.
Qed.

(** X14: with an extension that is not empty the result is never the empty
    file name (given that [lower] maps the empty string to itself). *)
Theorem safe_filename_not_empty (U : Unicode) (name default_ext : str) :
  lower U [] = [] ->
  default_ext <> [] ->
  (0 < List.length (safe_filename U name default_ext))%nat.
Proof.
  intros Hlow Hext. rewrite safe_filename_split.
  destruct (safe_filename U name []) as [|x stem] eqn:Hstem.
  - rewrite Hlow. unfold endswith. simpl.
    destruct (rev default_ext) as [|y t] eqn:E; simpl.
    + apply (f_equal (@rev char)) in E. rewrite rev_involutive in E.
      simpl in E. contradiction.
    + destruct default_ext; [contradiction|simpl; lia].
  - destruct (endswith _ _); simpl; lia.
Qed.

Lemma safe_filename_not_empty_witness :
  (0 < List.length (safe_filename ascii_only [] html_ext))%nat.
Proof.
  apply (safe_filename_not_empty ascii_only [] html_ext).
  - reflexivity.
  - discriminate.
Defined.

(** The steps after the slashes are replaced leave a string unchanged
    when each of its characters is alphanumeric or one of [.], [_], [-] and
    is not white space, and it does not end in a dot. *)
Lemma kept_steps_identity (U : Unicode) (s : str) :
  (forall c, In c s ->
     isalnum U c || char_in c (of_ascii "._-") = true
     /\ isspace U c = false) ->
  endswith s [dot] = false ->
  rstrip_where (fun c => char_in c (of_ascii ". "))
    (filter (fun c => isalnum U c || char_in c (of_ascii "._- "))
       (sub_runs (isspace U) space s))
  = s.
Proof.
  intros Hsafe Hdot.
  assert (Hsp : forall c, In c s -> isspace U c = false)
    by (intros c Hc; exact (proj2 (Hsafe c Hc))).
  unfold sub_runs. rewrite (sub_runs_from_none _ _ _ _ Hsp).
  rewrite filter_all.
  - unfold rstrip_where.
    destruct (rev s) as [|x t] eqn:E.
    + apply (f_equal (@rev char)) in E. rewrite rev_involutive in E.
      rewrite E. reflexivity.
    + assert (Hx : In x s) by (apply in_rev; rewrite E; left; auto).
      destruct (Hsafe x Hx) as [_ Hxs].
      unfold endswith in Hdot. rewrite E in Hdot. simpl in Hdot.
      replace (starts_with t []) with true in Hdot
        by (destruct t; reflexivity).
      rewrite andb_true_r in Hdot. apply N.eqb_neq in Hdot.
      assert (Hkeep : char_in x (of_ascii ". ") = false).
      { simpl. rewrite orb_false_r. apply orb_false_iff. split.
        - apply N.eqb_neq. exact Hdot.
        - apply N.eqb_neq. intros ->. discriminate Hxs. }
      cbn [drop_while]. cbv beta. rewrite Hkeep.
      rewrite <- E. apply rev_involutive.
  - intros c Hc. destruct (Hsafe c Hc) as [Hk _].
    apply orb_true_iff in Hk. apply orb_true_iff.
    destruct Hk as [Hk|Hk]; [left; exact Hk|right].
    unfold char_in in *. apply existsb_exists in Hk. apply existsb_exists.
    destruct Hk as (x & Hx & Heq). exists x. split; [|exact Heq].
    simpl in Hx |- *. tauto.
Qed.

(** A character that is kept or is not white space is no slash when it is
    alphanumeric or one of [.], [_], [-]. *)
Lemma kept_not_slash (U : Unicode) (c : char) :
  isalnum U c || char_in c (of_ascii "._-") = true -> is_slash c = false.
Proof.
  intro Hk. destruct (is_slash c) eqn:E; [|reflexivity].
  unfold is_slash in E. apply orb_true_iff in E.
  destruct E as [E|E]; apply N.eqb_eq in E; subst c; discriminate Hk.
Qed.

Lemma strip_none (U : Unicode) (s : str) :
  (forall c, In c s -> isspace U c = false) -> strip U s = s.
Proof.
  intro Hsp. unfold strip, rstrip_where.
  rewrite (drop_while_none _ _ Hsp).
  rewrite drop_while_none; [apply rev_involutive|].
  intros c Hc. apply Hsp. apply in_rev. exact Hc.
Qed.

(** X15: a name that is safe already is kept as it is.  When the name is
    its own NFKC form, each of its characters is alphanumeric or one of
    [.], [_], [-] and is not white space, and it does not end in a dot,
    the sanitised name is the name itself, and the result is the name,
    followed by [default_ext] unless the lower-cased name ends with it. *)
Theorem safe_name_is_kept (U : Unicode) (name default_ext : str) :
  normalize_NFKC U name = name ->
  (forall c, In c name ->
     isalnum U c || char_in c (of_ascii "._-") = true
     /\ isspace U c = false) ->
  endswith name [dot] = false ->
  safe_filename U name [] = name
  /\ safe_filename U name default_ext
     = if endswith (lower U name) default_ext
       then name else name ++ default_ext.
Proof.
  intros Hnorm Hsafe Hdot.
  assert (Hstem : safe_filename U name [] = name).
  { unfold safe_filename. rewrite endswith_nil. cbn [negb]. cbv iota.
    rewrite Hnorm.
    rewrite strip_none by (intros c Hc; exact (proj2 (Hsafe c Hc))).
    unfold sub_runs at 2. rewrite sub_runs_from_none.
    - exact (kept_steps_identity U name Hsafe Hdot).
    - intros c Hc. apply (kept_not_slash U). exact (proj1 (Hsafe c Hc)). }
  split; [exact Hstem|].
  rewrite safe_filename_split, Hstem.
  reflexivity.
Qed.

Lemma safe_name_is_kept_witness :
  safe_filename ascii_only (of_ascii "Q3-report_v2.final") []
  = of_ascii "Q3-report_v2.final"
  /\ safe_filename ascii_only (of_ascii "Q3-report_v2.final") html_ext
     = if endswith (lower ascii_only (of_ascii "Q3-report_v2.final"))
            html_ext
       then of_ascii "Q3-report_v2.final"
       else of_ascii "Q3-report_v2.final" ++ html_ext.
Proof.
  apply (safe_name_is_kept ascii_only (of_ascii "Q3-report_v2.final")
           html_ext).
  - reflexivity.
  - simpl. intros c H.
    repeat (destruct H as [<-|H]; [split; reflexivity|]).
    contradiction.
  - reflexivity.
Defined.

Lemma sub_runs_from_app_none (i : bool) (p : char -> bool) (r : char)
    (a s : str) :
  (forall c, In c a -> p c = false) ->
  sub_runs_from i p r (a ++ s)
  = a ++ sub_runs_from (match a with [] => i | _ :: _ => false end) p r s.
Proof.
  revert i. induction a as [|x a IH]; intros i H; [reflexivity|].
  simpl. rewrite (H x (or_introl eq_refl)). f_equal.
  rewrite IH by (intros c Hc; apply H; right; exact Hc).
  destruct a; reflexivity.
Qed.

Lemma sub_runs_from_run (p : char -> bool) (r : char) (run s : str) :
  (forall c, In c run -> p c = true) ->
  sub_runs_from true p r (run ++ s) = sub_runs_from true p r s.
Proof.
  induction run as [|x run IH]; intro H; [reflexivity|].
  simpl. rewrite (H x (or_introl eq_refl)).
  apply IH. intros c Hc. apply H. right. exact Hc.
Qed.

Lemma endswith_app (a b : str) (c : char) :
  b <> [] -> endswith (a ++ b) [c] = endswith b [c].
Proof.
  intro Hb. unfold endswith. rewrite rev_app_distr.
  destruct (rev b) as [|x t] eqn:E.
  - apply (f_equal (@rev char)) in E. rewrite rev_involutive in E.
    contradiction.
  - simpl. f_equal. destruct (t ++ rev a), t; reflexivity.
Qed.

(** X16: the directories of a path are joined by one underscore.  For two
    safe segments (each character alphanumeric or one of [.], [_], [-] and
    not white space, the second not ending in a dot) with a run of one or
    more [/] and [\] between them, and a name that is its own NFKC form,
    the sanitised name is the first segment, one [_], and the second
    segment. *)
Theorem slashes_become_one_underscore (U : Unicode) (a run b : str) :
  normalize_NFKC U (a ++ run ++ b) = a ++ run ++ b ->
  (forall c, In c (a ++ b) ->
     isalnum U c || char_in c (of_ascii "._-") = true
     /\ isspace U c = false) ->
  run <> [] ->
  (forall c, In c run -> is_slash c = true) ->
  endswith b [dot] = false ->
  safe_filename U (a ++ run ++ b) [] = a ++ underscore :: b.
Proof.
  intros Hnorm Hsafe Hrun Hslash Hdot.
  assert (Ha : forall c, In c a ->
            isalnum U c || char_in c (of_ascii "._-") = true
            /\ isspace U c = false)
    by (intros c Hc; apply Hsafe; apply in_or_app; left; exact Hc).
  assert (Hb : forall c, In c b ->
            isalnum U c || char_in c (of_ascii "._-") = true
            /\ isspace U c = false)
    by (intros c Hc; apply Hsafe; apply in_or_app; right; exact Hc).
  assert (Hrs : forall c, In c run -> isspace U c = false).
  { intros c Hc. specialize (Hslash c Hc).
    unfold is_slash in Hslash. apply orb_true_iff in Hslash.
    destruct Hslash as [E|E]; apply N.eqb_eq in E; subst c; reflexivity. }
  unfold safe_filename. rewrite endswith_nil. cbn [negb]. cbv iota.
  rewrite Hnorm.
  rewrite strip_none.
  2:{ intros c Hc. apply in_app_or in Hc. destruct Hc as [Hc|Hc];
        [exact (proj2 (Ha c Hc))|].
      apply in_app_or in Hc. destruct Hc as [Hc|Hc];
        [exact (Hrs c Hc)|exact (proj2 (Hb c Hc))]. }
  assert (Hsub : sub_runs is_slash underscore (a ++ run ++ b)
                 = a ++ underscore :: b).
  { unfold sub_runs.
    rewrite sub_runs_from_app_none
      by (intros c Hc; apply (kept_not_slash U); exact (proj1 (Ha c Hc))).
    f_equal.
    replace (match a with [] => false | _ :: _ => false end) with false
      by (destruct a; reflexivity).
    destruct run as [|x run]; [contradiction|].
    simpl. rewrite (Hslash x (or_introl eq_refl)). f_equal.
    rewrite sub_runs_from_run
      by (intros c Hc; apply Hslash; right; exact Hc).
    apply sub_runs_from_none.
    intros c Hc. apply (kept_not_slash U). exact (proj1 (Hb c Hc)). }
  rewrite Hsub.
  apply kept_steps_identity.
  - intros c Hc. apply in_app_or in Hc. destruct Hc as [Hc|[<-|Hc]].
    + exact (Ha c Hc).
    + split; reflexivity.
    + exact (Hb c Hc).
  - destruct b as [|y b'].
    + unfold endswith. rewrite rev_app_distr. reflexivity.
    + change (a ++ underscore :: y :: b')
        with (a ++ [underscore] ++ y :: b').
      rewrite app_assoc, endswith_app by discriminate. exact Hdot.
Qed.

Lemma slashes_become_one_underscore_witness :
  safe_filename ascii_only
    (of_ascii "docs" ++ of_ascii "/\/" ++ of_ascii "read.me") []
  = of_ascii "docs" ++ underscore :: of_ascii "read.me".
Proof.
  apply (slashes_become_one_underscore ascii_only
           (of_ascii "docs") (of_ascii "/\/") (of_ascii "read.me")).
  - reflexivity.
  - simpl. intros c H.
    repeat (destruct H as [<-|H]; [split; reflexivity|]).
    contradiction.
  - discriminate.
  - simpl. intros c H.
    repeat (destruct H as [<-|H]; [reflexivity|]).
    contradiction.
  - reflexivity.
Defined.

End FilenameProperties.
